(** * feather.js: bech32 address families and message converters

    A shallow embedding of [src/core/bech32.ts] (the five address and
    public-key families built on the [bech32] package), of
    [MsgClaimDelegationRewards] and of [MsgCreateDenom], with the
    properties of the specification stated and proved over it.

    Conventions.
    - A JavaScript string is a [string]: a sequence of code units, here
      the code units below 256.
    - A JavaScript number that the code uses as a length or as a 5-bit
      word is a [Z].
    - A call that may throw returns a [result]; [try_catch] is the
      [try { } catch (e) { }] statement.
    - The [bech32] package is imported, not part of the repository: the
      address module is written against the interface [Bech32Lib] (an
      object with a [decode] and an [encode] method).  [Bech32.lib] is a
      model of the package itself, used to run the module on real
      addresses. *)

From Stdlib Require Import String Ascii List ZArith Bool Lia.
Import ListNotations.

Local Open Scope list_scope.
Local Open Scope string_scope.
Local Open Scope Z_scope.

(* ------------------------------------------------------------------ *)
(** ** Exceptions *)

(** [throw new Error(msg)] and [throw new TypeError(msg)]. *)
Inductive exn : Type :=
| Error (msg : string)
| TypeError (msg : string).

Inductive result (A : Type) : Type :=
| Return (a : A)
| Throw (e : exn).

Arguments Return {A} a.
Arguments Throw {A} e.

Definition bind {A B : Type} (m : result A) (k : A -> result B) : result B :=
  match m with
  | Return a => k a
  | Throw e => Throw e
  end.

Notation "x <- m ;; k" := (bind m (fun x => k))
  (at level 61, m at next level, right associativity).

(** [try { body } catch (e) { handler }]. *)
Definition try_catch {A : Type} (body : result A) (handler : exn -> result A)
  : result A :=
  match body with
  | Return a => Return a
  | Throw e => handler e
  end.

(* ------------------------------------------------------------------ *)
(** ** JavaScript values and string operations used by the module *)

Module JS.

(** [s.length]. *)
Definition length (s : string) : Z := Z.of_nat (String.length s).

(** [s.substring(indexStart, indexEnd)]: both indices are clamped to
    [0 .. s.length] and swapped when the first is the larger. *)
Definition substring (s : string) (indexStart indexEnd : Z) : string :=
  let clamp i := Z.max 0 (Z.min i (length s)) in
  let a := clamp indexStart in
  let b := clamp indexEnd in
  let lo := Z.min a b in
  let hi := Z.max a b in
  String.substring (Z.to_nat lo) (Z.to_nat (hi - lo)) s.

(** A value of the TypeScript type [false | string]. *)
Inductive falseOrString : Type :=
| False
| Str (s : string).

(** Truthiness: [false] and the empty string are falsy. *)
Definition truthy_string (s : string) : bool := negb (s =? "")%string.

Definition truthy (v : falseOrString) : bool :=
  match v with
  | False => false
  | Str s => truthy_string s
  end.

(** [cond && s] for a boolean [cond] and a string [s]. *)
Definition and_string (cond : bool) (s : string) : falseOrString :=
  if cond then Str s else False.

(** [a || b] where both sides are [false | string]; [b] is evaluated
    only when [a] is falsy. *)
Definition or (a b : result falseOrString) : result falseOrString :=
  x <- a ;; if truthy x then Return x else b.

(** [v || s] for a string [s]. *)
Definition or_string (v : falseOrString) (s : string) : string :=
  match v with
  | Str t => if truthy_string t then t else s
  | False => s
  end.

(** [v === s] for a string [s]: no coercion, [false] equals no string. *)
Definition strict_eq (v : falseOrString) (s : string) : bool :=
  match v with
  | Str t => (t =? s)%string
  | False => false
  end.

(** An optional string parameter used as a condition, [prefix ? .. : ..]:
    the branch for a present prefix is taken only for a non-empty
    string; [undefined] and [''] take the other one. *)
Definition if_given (prefix : option string) : option string :=
  match prefix with
  | Some p => if truthy_string p then Some p else None
  | None => None
  end.

(** *** Regular expressions

    The fragment the module uses: literal characters, a character range
    with a bounded repetition, concatenation and a capture group. *)
Inductive regex : Type :=
| Chars (s : string)
| Range (lo hi : ascii) (min max : nat)
| Cat (r1 r2 : regex)
| Group (r : regex).

Definition in_range (lo hi c : ascii) : bool :=
  (N.leb (N_of_ascii lo) (N_of_ascii c) && N.leb (N_of_ascii c) (N_of_ascii hi))%bool.

(** What is left of [s] after [k] characters of the range, for every
    [k] between [min] and [max] that the string allows. *)
Fixpoint repeat_range (lo hi : ascii) (min max : nat) (s : string)
  : list string :=
  ((match min with O => [s] | S _ => [] end) ++
   match max, s with
   | S max', String c s' =>
       if in_range lo hi c then repeat_range lo hi (Nat.pred min) max' s'
       else []
   | _, _ => []
   end)%list.

Fixpoint drop_prefix (lit s : string) : option string :=
  match lit, s with
  | EmptyString, _ => Some s
  | String a lit', String b s' =>
      if Ascii.eqb a b then drop_prefix lit' s' else None
  | String _ _, EmptyString => None
  end.

(** Every way of matching [r] at the start of [s], as the list of what
    remains of [s] after the match. *)
Fixpoint match_here (r : regex) (s : string) : list string :=
  match r with
  | Chars lit =>
      match drop_prefix lit s with Some rest => [rest] | None => [] end
  | Range lo hi min max => repeat_range lo hi min max s
  | Cat r1 r2 => flat_map (match_here r2) (match_here r1 s)
  | Group r1 => match_here r1 s
  end.

Definition matches_here (r : regex) (s : string) : bool :=
  match match_here r s with [] => false | _ :: _ => true end.

(** [/r/g.test(s)] on a regular expression literal: the literal is a
    fresh object with [lastIndex = 0] each time it is evaluated, so the
    search starts at the first character; there is no anchor, so the
    match may start at any position. *)
Fixpoint test (r : regex) (s : string) : bool :=
  (matches_here r s ||
   match s with
   | EmptyString => false
   | String _ s' => test r s'
   end)%bool.

End JS.

(* ------------------------------------------------------------------ *)
(** ** The imported [bech32] object *)

(** What [bech32.decode] returns: [{ prefix, words }]. *)
Record Decoded : Type := mkDecoded {
  prefix : string;
  words : list Z
}.

(** [import { bech32 } from 'bech32']: [decode] throws on a malformed
    string; [encode] builds the checksummed string. *)
Record Bech32Lib : Type := {
  decode : string -> result Decoded;
  encode : string -> list Z -> result string
}.

(* ------------------------------------------------------------------ *)
(** ** [src/core/bech32.ts] *)

(** [function checkLength(data: string, length: number): false | string] *)
Definition checkLength (bech32 : Bech32Lib) (data : string) (length : Z)
  : result JS.falseOrString :=
  try_catch
    (vals <- decode bech32 data ;;
     Return (JS.and_string (Z.of_nat (List.length (words vals)) =? length)
                           (prefix vals)))
    (fun _ => Return JS.False).

(** [/([a-z]{2,20}<suffix>)/g] *)
Definition prefix_pattern (suffix : string) : JS.regex :=
  JS.Group (JS.Cat (JS.Range "a" "z" 2 20) (JS.Chars suffix)).

Module AccAddress.
Section WithBech32.
Variable bech32 : Bech32Lib.

Definition validate (data : string) (prefix : option string) : result bool :=
  match JS.if_given prefix with
  | Some p =>
      v <- JS.or (checkLength bech32 data 32) (checkLength bech32 data 52) ;;
      Return (JS.strict_eq v p)
  | None =>
      v <- JS.or (checkLength bech32 data 32) (checkLength bech32 data 52) ;;
      Return (JS.truthy v)
  end.

Definition fromValAddress (address : string) : result string :=
  vals <- decode bech32 address ;;
  encode bech32
    (JS.substring (prefix vals) 0
       (JS.length (prefix vals) - JS.length "valoper"))
    (words vals).

Definition getPrefix (address : string) : result string :=
  vals <- decode bech32 address ;;
  Return (prefix vals).
End WithBech32.
End AccAddress.

Module AccPubKey.
Section WithBech32.
Variable bech32 : Bech32Lib.

Definition validate (data : string) (prefix : option string) : result bool :=
  match JS.if_given prefix with
  | Some p =>
      v <- checkLength bech32 data 32 ;;
      Return (JS.strict_eq v (p ++ "pub"))
  | None =>
      v <- checkLength bech32 data 32 ;;
      Return (JS.test (prefix_pattern "pub") (JS.or_string v ""))
  end.

Definition fromAccAddress (address : string) (prefix : string)
  : result string :=
  vals <- decode bech32 address ;;
  encode bech32 (prefix ++ "pub") (words vals).

Definition getPrefix (address : string) : result string :=
  vals <- decode bech32 address ;;
  Return (JS.substring (prefix vals) 0
            (JS.length (prefix vals) - JS.length "pub")).
End WithBech32.
End AccPubKey.

Module ValAddress.
Section WithBech32.
Variable bech32 : Bech32Lib.

Definition validate (data : string) (prefix : option string) : result bool :=
  match JS.if_given prefix with
  | Some p =>
      v <- checkLength bech32 data 32 ;;
      Return (JS.strict_eq v (p ++ "valoper"))
  | None =>
      v <- checkLength bech32 data 32 ;;
      Return (JS.test (prefix_pattern "valoper") (JS.or_string v ""))
  end.

Definition fromAccAddress (address : string) (prefix : string)
  : result string :=
  vals <- decode bech32 address ;;
  encode bech32 (prefix ++ "valoper") (words vals).

Definition getPrefix (address : string) : result string :=
  vals <- decode bech32 address ;;
  Return (JS.substring (prefix vals) 0
            (JS.length (prefix vals) - JS.length "valoper")).
End WithBech32.
End ValAddress.

Module ValPubKey.
Section WithBech32.
Variable bech32 : Bech32Lib.

Definition validate (data : string) (prefix : option string) : result bool :=
  match JS.if_given prefix with
  | Some p =>
      v <- checkLength bech32 data 32 ;;
      Return (JS.strict_eq v (p ++ "valoperpub"))
  | None =>
      v <- checkLength bech32 data 32 ;;
      Return (JS.test (prefix_pattern "valoperpub") (JS.or_string v ""))
  end.

Definition fromValAddress (valAddress : string) (prefix : string)
  : result string :=
  vals <- decode bech32 valAddress ;;
  encode bech32 (prefix ++ "valoperpub") (words vals).

Definition getPrefix (address : string) : result string :=
  vals <- decode bech32 address ;;
  Return (JS.substring (prefix vals) 0
            (JS.length (prefix vals) - JS.length "valoperpub")).
End WithBech32.
End ValPubKey.

Module ValConsAddress.
Section WithBech32.
Variable bech32 : Bech32Lib.

Definition validate (data : string) (prefix : option string) : result bool :=
  match JS.if_given prefix with
  | Some p =>
      v <- checkLength bech32 data 32 ;;
      Return (JS.strict_eq v (p ++ "valcons"))
  | None =>
      v <- checkLength bech32 data 32 ;;
      Return (JS.test (prefix_pattern "valcons") (JS.or_string v ""))
  end.

Definition getPrefix (address : string) : result string :=
  vals <- decode bech32 address ;;
  Return (JS.substring (prefix vals) 0
            (JS.length (prefix vals) - JS.length "valcons")).
End WithBech32.
End ValConsAddress.

(* ------------------------------------------------------------------ *)
(** ** The [bech32] package

    A model of the package the module imports (BIP-173 checksummed
    strings, as [bech32.encode] and [bech32.decode] of the package
    compute them).  Numbers that go through the bit operators are
    converted to 32-bit integers as JavaScript does. *)

Module Bech32.

Definition ALPHABET : string := "qpzry9x8gf2tvdw0s3jn54khce6mua7l".

Definition ENCODING_CONST : Z := 1.

Definition LIMIT : Z := 90.

(** The conversion of a number to a signed 32-bit integer. *)
Definition to_int32 (x : Z) : Z := (x + 2 ^ 31) mod 2 ^ 32 - 2 ^ 31.

Definition shr (a n : Z) : Z := Z.shiftr (to_int32 a) n.
Definition shl (a n : Z) : Z := to_int32 (Z.shiftl (to_int32 a) n).
Definition and (a b : Z) : Z := Z.land (to_int32 a) (to_int32 b).
Definition xor (a b : Z) : Z := Z.lxor (to_int32 a) (to_int32 b).
Definition neg (a : Z) : Z := to_int32 (- a).

Definition charCode (c : ascii) : Z := Z.of_N (N_of_ascii c).

(** [s.charAt(i)]: the empty string outside the string. *)
Definition charAt (s : string) (i : Z) : string :=
  if (0 <=? i) && (i <? JS.length s)
  then match String.get (Z.to_nat i) s with
       | Some c => String c EmptyString
       | None => EmptyString
       end
  else EmptyString.

Fixpoint index_from (c : ascii) (s : string) (i : Z) : option Z :=
  match s with
  | EmptyString => None
  | String d s' => if Ascii.eqb c d then Some i else index_from c s' (i + 1)
  end.

(** [ALPHABET_MAP[c]]; [None] is [undefined]. *)
Definition ALPHABET_MAP (c : ascii) : option Z := index_from c ALPHABET 0.

Definition polymodStep (pre : Z) : Z :=
  let b := shr pre 25 in
  xor (xor (xor (xor (xor
    (shl (and pre 0x1ffffff) 5)
    (and (neg (and (shr b 0) 1)) 0x3b6a57b2))
    (and (neg (and (shr b 1) 1)) 0x26508e6d))
    (and (neg (and (shr b 2) 1)) 0x1ea119fa))
    (and (neg (and (shr b 3) 1)) 0x3d4233dd))
    (and (neg (and (shr b 4) 1)) 0x2a1462b3).

(** Case mapping on the code units below 256. *)
Definition is_upper (c : Z) : bool :=
  ((65 <=? c) && (c <=? 90)) || ((192 <=? c) && (c <=? 222) && negb (c =? 215)).

(** Code units that [toUpperCase] changes. *)
Definition is_lower (c : Z) : bool :=
  ((97 <=? c) && (c <=? 122)) || (c =? 181) ||
  ((223 <=? c) && (c <=? 255) && negb (c =? 247)).

Definition lower_char (c : ascii) : ascii :=
  if is_upper (charCode c) then ascii_of_N (Z.to_N (charCode c + 32)) else c.

Fixpoint toLowerCase (s : string) : string :=
  match s with
  | EmptyString => EmptyString
  | String c s' => String (lower_char c) (toLowerCase s')
  end.

(** [s !== s.toUpperCase()]. *)
Fixpoint differs_from_upper (s : string) : bool :=
  match s with
  | EmptyString => false
  | String c s' => is_lower (charCode c) || differs_from_upper s'
  end.

(** The two loops of [prefixChk]; [inl] is the error message it
    returns in place of a number. *)
Fixpoint prefixChk_high (whole rest : string) (chk : Z) : string + Z :=
  match rest with
  | EmptyString => inr chk
  | String ch rest' =>
      let c := charCode ch in
      if (c <? 33) || (c >? 126)
      then inl ("Invalid prefix (" ++ whole ++ ")")
      else prefixChk_high whole rest' (xor (polymodStep chk) (shr c 5))
  end.

Fixpoint prefixChk_low (rest : string) (chk : Z) : Z :=
  match rest with
  | EmptyString => chk
  | String ch rest' =>
      prefixChk_low rest' (xor (polymodStep chk) (and (charCode ch) 0x1f))
  end.

Definition prefixChk (prefix : string) : string + Z :=
  match prefixChk_high prefix prefix 1 with
  | inl msg => inl msg
  | inr chk => inr (prefixChk_low prefix (polymodStep chk))
  end.

(** The loop of [encode] over the words. *)
Fixpoint encode_words (ws : list Z) (chk : Z) (result_ : string)
  : result (Z * string) :=
  match ws with
  | [] => Return (chk, result_)
  | x :: ws' =>
      if negb (shr x 5 =? 0)
      then Throw (Error "Non 5-bit word")
      else encode_words ws' (xor (polymodStep chk) x)
             (result_ ++ charAt ALPHABET x)
  end.

(** The loop of [encode] over the six checksum characters,
    [i = 6 - n .. 5]. *)
Fixpoint encode_checksum (n : nat) (chk : Z) (result_ : string) : string :=
  match n with
  | O => result_
  | S n' =>
      let i := 6 - Z.of_nat n in
      let v := and (shr chk ((5 - i) * 5)) 0x1f in
      encode_checksum n' chk (result_ ++ charAt ALPHABET v)
  end.

Fixpoint iterate {A : Type} (n : nat) (f : A -> A) (x : A) : A :=
  match n with
  | O => x
  | S n' => iterate n' f (f x)
  end.

Definition encode (prefix : string) (words : list Z) : result string :=
  if JS.length prefix + 7 + Z.of_nat (List.length words) >? LIMIT
  then Throw (TypeError "Exceeds length limit")
  else
    let prefix := toLowerCase prefix in
    match prefixChk prefix with
    | inl msg => Throw (Error msg)
    | inr chk =>
        r <- encode_words words chk (prefix ++ "1") ;;
        let chk := iterate 6 polymodStep (fst r) in
        let chk := xor chk ENCODING_CONST in
        Return (encode_checksum 6 chk (snd r))
    end.

(** [str.lastIndexOf('1')], [-1] when there is none. *)
Fixpoint lastIndexOf_from (c : ascii) (s : string) (i : Z) (found : Z) : Z :=
  match s with
  | EmptyString => found
  | String d s' =>
      lastIndexOf_from c s' (i + 1) (if Ascii.eqb c d then i else found)
  end.

Definition lastIndexOf (s : string) (c : ascii) : Z :=
  lastIndexOf_from c s 0 (-1).

(** The loop of [__decode] over [wordChars], from index [i]. *)
Fixpoint decode_words (rest : string) (i len : Z) (chk : Z) (ws : list Z)
  : string + (Z * list Z) :=
  match rest with
  | EmptyString => inr (chk, ws)
  | String c rest' =>
      match ALPHABET_MAP c with
      | None => inl ("Unknown character " ++ String c EmptyString)
      | Some v =>
          let chk := xor (polymodStep chk) v in
          if i + 6 >=? len
          then decode_words rest' (i + 1) len chk ws
          else decode_words rest' (i + 1) len chk (ws ++ [v])%list
      end
  end.

(** [__decode]: [inl] is the error message, [inr] the decoded object. *)
Definition decode_ (str : string) : string + Decoded :=
  if JS.length str <? 8 then inl (str ++ " too short")
  else if JS.length str >? LIMIT then inl "Exceeds length limit"
  else
    let lowered := toLowerCase str in
    if negb (str =? lowered)%string && differs_from_upper str
    then inl ("Mixed-case string " ++ str)
    else
      let str := lowered in
      let split := lastIndexOf str "1" in
      if split =? -1 then inl ("No separator character for " ++ str)
      else if split =? 0 then inl ("Missing prefix for " ++ str)
      else
        let prefix := JS.substring str 0 split in
        let wordChars := JS.substring str (split + 1) (JS.length str) in
        if JS.length wordChars <? 6 then inl "Data too short"
        else
          match prefixChk prefix with
          | inl msg => inl msg
          | inr chk =>
              match decode_words wordChars 0 (JS.length wordChars) chk [] with
              | inl msg => inl msg
              | inr (chk, ws) =>
                  if negb (chk =? ENCODING_CONST)
                  then inl ("Invalid checksum for " ++ str)
                  else inr (mkDecoded prefix ws)
              end
          end.

Definition decode (str : string) : result Decoded :=
  match decode_ str with
  | inr res => Return res
  | inl msg => Throw (Error msg)
  end.

(** The exported object. *)
Definition lib : Bech32Lib := Build_Bech32Lib decode encode.

End Bech32.

(* ------------------------------------------------------------------ *)
(** ** [src/core/alliance/msgs/MsgClaimDelegationRewards.ts] *)

Module MsgClaimDelegationRewards.

(** The class: its constructor takes the three public fields. *)
Record t : Type := new {
  delegatorAddress : string;
  validatorAddress : string;
  denom : string
}.

Module Amino.
Record value_t : Type := mkValue {
  delegatorAddress : string;
  validatorAddress : string;
  denom : string
}.
Record t : Type := mk {
  type : string;
  value : value_t
}.
End Amino.

Module Data.
Record t : Type := mk {
  at_type : string;
  delegatorAddress : string;
  validatorAddress : string;
  denom : string
}.
End Data.

Definition fromAmino (data : Amino.t) (_ : option bool) : t :=
  let v := Amino.value data in
  new (Amino.delegatorAddress v) (Amino.validatorAddress v) (Amino.denom v).

Definition toAmino (this : t) (_ : option bool) : Amino.t :=
  Amino.mk "alliance/MsgClaimDelegationRewards"
    (Amino.mkValue (delegatorAddress this) (validatorAddress this)
       (denom this)).

Definition fromData (proto : Data.t) (_ : option bool) : t :=
  new (Data.delegatorAddress proto) (Data.validatorAddress proto)
    (Data.denom proto).

Definition toData (this : t) (_ : option bool) : Data.t :=
  Data.mk "/alliance.alliance.MsgClaimDelegationRewards"
    (delegatorAddress this) (validatorAddress this) (denom this).

End MsgClaimDelegationRewards.

(** ** [MsgCreateDenom] (token factory) *)

Module MsgCreateDenom.

Record t : Type := new {
  sender : string;
  subdenom : string
}.

Module Amino.
Record value_t : Type := mkValue {
  sender : string;
  subdenom : string
}.
Record t : Type := mk {
  type : string;
  value : value_t
}.
End Amino.

Module Data.
Record t : Type := mk {
  at_type : string;
  sender : string;
  subdenom : string
}.
End Data.

Definition toAmino (this : t) (_ : option bool) : Amino.t :=
  Amino.mk "osmosis/tokenfactory/create-denom"
    (Amino.mkValue (sender this) (subdenom this)).

Definition fromData (data : Data.t) (_ : option bool) : t :=
  new (Data.sender data) (Data.subdenom data).

Definition toData (this : t) (_ : option bool) : Data.t :=
  Data.mk "/cosmwasm.tokenfactory.v1beta1.MsgCreateDenom"
    (sender this) (subdenom this).

Definition fromAmino (data : Amino.t) : t :=
  let v := Amino.value data in
  new (Amino.sender v) (Amino.subdenom v).

End MsgCreateDenom.

(* ------------------------------------------------------------------ *)
(** ** Vocabulary of the specification *)

(** The five families of the address module. *)
Inductive Family : Type :=
| Account
| AccountPubKey
| ValidatorOperator
| ValidatorPubKey
| ValidatorConsensus.

(** The suffix each family's functions append to, or strip from, the
    root prefix. *)
Definition suffix_of (f : Family) : string :=
  match f with
  | Account => ""
  | AccountPubKey => "pub"
  | ValidatorOperator => "valoper"
  | ValidatorPubKey => "valoperpub"
  | ValidatorConsensus => "valcons"
  end.

Definition validate_of (f : Family) (bech32 : Bech32Lib)
  : string -> option string -> result bool :=
  match f with
  | Account => AccAddress.validate bech32
  | AccountPubKey => AccPubKey.validate bech32
  | ValidatorOperator => ValAddress.validate bech32
  | ValidatorPubKey => ValPubKey.validate bech32
  | ValidatorConsensus => ValConsAddress.validate bech32
  end.

Definition getPrefix_of (f : Family) (bech32 : Bech32Lib)
  : string -> result string :=
  match f with
  | Account => AccAddress.getPrefix bech32
  | AccountPubKey => AccPubKey.getPrefix bech32
  | ValidatorOperator => ValAddress.getPrefix bech32
  | ValidatorPubKey => ValPubKey.getPrefix bech32
  | ValidatorConsensus => ValConsAddress.getPrefix bech32
  end.

(** The payload lengths, in words, that [validate] passes to
    [checkLength] for the family. *)
Definition accepted_length (f : Family) (n : nat) : bool :=
  match f with
  | Account => (Nat.eqb n 32 || Nat.eqb n 52)%bool
  | _ => Nat.eqb n 32
  end.

(** The account-class lengths as the specification words them. *)
Definition account_length_as_specified (n : nat) : bool :=
  (Nat.eqb n 20 || Nat.eqb n 52)%bool.

(** The prefix check of [validate] on a decoded prefix, by family and by
    the optional expected root prefix. *)
Definition prefix_check (f : Family) (expected : option string)
  (decoded : string) : Prop :=
  match f, JS.if_given expected with
  | Account, Some p => decoded = p
  | Account, None => decoded <> ""
  | _, Some p => decoded = p ++ suffix_of f
  | _, None => JS.test (prefix_pattern (suffix_of f)) decoded = true
  end.

(** The [fromX] functions that take a root prefix. *)
Inductive Derivation : Type :=
| AccPubKey_fromAccAddress
| ValAddress_fromAccAddress
| ValPubKey_fromValAddress.

Definition derive (d : Derivation) (bech32 : Bech32Lib)
  : string -> string -> result string :=
  match d with
  | AccPubKey_fromAccAddress => AccPubKey.fromAccAddress bech32
  | ValAddress_fromAccAddress => ValAddress.fromAccAddress bech32
  | ValPubKey_fromValAddress => ValPubKey.fromValAddress bech32
  end.

(** The family of the string a derivation builds. *)
Definition target (d : Derivation) : Family :=
  match d with
  | AccPubKey_fromAccAddress => AccountPubKey
  | ValAddress_fromAccAddress => ValidatorOperator
  | ValPubKey_fromValAddress => ValidatorPubKey
  end.

(** The codec contract at a prefix [p] and words [ws]: [encode] returns
    a string, and [decode] gives [p] and [ws] back from it. *)
Definition roundtrips (bech32 : Bech32Lib) (p : string) (ws : list Z) : Prop :=
  exists s, encode bech32 p ws = Return s /\
            decode bech32 s = Return (mkDecoded p ws).

(** [encode] returns a string for the prefix [p] and the words [ws]. *)
Definition encodes (bech32 : Bech32Lib) (p : string) (ws : list Z) : Prop :=
  exists s, encode bech32 p ws = Return s.

(** [s] ends with [sfx]. *)
Definition ends_with (sfx s : string) : bool :=
  let n := String.length s in
  let k := String.length sfx in
  (Nat.leb k n && (String.substring (n - k) k s =? sfx)%string)%bool.

Fixpoint all_chars (P : ascii -> bool) (s : string) : bool :=
  match s with
  | EmptyString => true
  | String c s' => (P c && all_chars P s')%bool
  end.

(** The pattern as the specification words it: the decoded prefix is a
    root prefix of 2 to 20 lowercase letters immediately followed by the
    suffix of the family. *)
Definition root_then_suffix (sfx decoded : string) : bool :=
  let n := (String.length decoded - String.length sfx)%nat in
  (Nat.leb (String.length sfx) (String.length decoded) &&
   Nat.leb 2 n && Nat.leb n 20 &&
   all_chars (JS.in_range "a" "z") (String.substring 0 n decoded) &&
   (String.substring n (String.length sfx) decoded =? sfx)%string)%bool.

(** *** Concrete strings *)

(** A 20-byte account address of the Terra main net: 32 words. *)
Definition terra_account : string :=
  "terra1x46rqay4d3cssq8gxxvqz8xt6nwlz4td20k38v".

Definition terra_account_words : list Z :=
  [6; 21; 26; 3; 0; 29; 4; 21; 13; 17; 24; 16; 16; 0; 7; 8; 6; 6;
   12; 0; 2; 7; 6; 11; 26; 19; 14; 31; 2; 21; 11; 13].

(** The first 20 words of [terra_account], encoded under ["terra"]. *)
Definition terra_20_words : string := "terra1x46rqay4d3cssq8gxxvqvk8wgl".

(** The payload of [terra_account] under the other prefixes. *)
Definition terra_valoper : string :=
  "terravaloper1x46rqay4d3cssq8gxxvqz8xt6nwlz4td2q6vhl".

Definition terra_valcons : string :=
  "terravalcons1x46rqay4d3cssq8gxxvqz8xt6nwlz4td7nfsm7".

Definition terra_valoperpub : string :=
  "terravaloperpub1x46rqay4d3cssq8gxxvqz8xt6nwlz4td3gwy0h".

(** A root prefix of 21 letters, with the consensus suffix. *)
Definition long_root_valcons : string :=
  "aaaaaaaaaaaaaaaaaaaaavalcons1x46rqay4d3cssq8gxxvqz8xt6nwlz4td08yf6j".

Definition not_bech32 : string := "not-a-valid-bech32-string".

(** [terra_account] in upper case. *)
Definition terra_account_upper : string :=
  "TERRA1X46RQAY4D3CSSQ8GXXVQZ8XT6NWLZ4TD20K38V".

(** A string of 90 characters: the prefix ["a"] and 82 words, all 0. *)
Definition long_source : string :=
  "a1qqqqqqqqqqqqqqqqqqqqqqqqqqqqqqqqqqqqqqqqqqqqqqqqqqqqqqqqqqqqqqqqqqqqqqqqqqqqqqqqqq87k0gd".

(** Equality of families is decidable. *)
Definition Family_eq_dec (f g : Family) : {f = g} + {f <> g}.
Proof. decide equality. Defined.

(* ------------------------------------------------------------------ *)
(** ** Basic facts *)

Lemma string_length_app (s t : string) :
  String.length (s ++ t) = (String.length s + String.length t)%nat.
Proof. induction s as [|c s IH]; simpl; [reflexivity | now rewrite IH]. Qed.

Lemma string_app_empty (s : string) : s ++ "" = s.
Proof. induction s as [|c s IH]; simpl; [reflexivity | now rewrite IH]. Qed.

Lemma string_substring_app (s t : string) :
  String.substring 0 (String.length s) (s ++ t) = s.
Proof. induction s as [|c s IH]; simpl; [now destruct t | now rewrite IH]. Qed.

Lemma substring_strips_suffix (p sfx : string) :
  JS.substring (p ++ sfx) 0 (JS.length (p ++ sfx) - JS.length sfx) = p.
Proof.
  unfold JS.substring, JS.length. rewrite string_length_app.
  set (n := String.length p). set (m := String.length sfx).
  match goal with
  | |- String.substring (Z.to_nat ?lo) (Z.to_nat ?len) _ = _ =>
      replace len with (Z.of_nat n) by lia; replace lo with 0 by lia
  end.
  rewrite Nat2Z.id. apply string_substring_app.
Qed.

Lemma app_char_neq (p : string) (c : string) :
  c <> "" -> p ++ c <> p.
Proof.
  intros Hc Heq. apply (f_equal String.length) in Heq.
  rewrite string_length_app in Heq. destruct c; [congruence | simpl in Heq; lia].
Qed.

Lemma truthy_string_true (s : string) : JS.truthy_string s = true <-> s <> "".
Proof.
  unfold JS.truthy_string. destruct (String.eqb_spec s ""); simpl; split;
    congruence.
Qed.

Lemma if_given_some (o : option string) (p : string) :
  JS.if_given o = Some p <-> o = Some p /\ p <> "".
Proof.
  destruct o as [q|]; simpl.
  - destruct (JS.truthy_string q) eqn:E.
    + apply truthy_string_true in E. split.
      * intros [= ->]. now split.
      * intros [[= ->] _]. reflexivity.
    + split; [discriminate|]. intros [[= ->] H].
      apply truthy_string_true in H. congruence.
  - split; [discriminate | intros [? _]; discriminate].
Qed.

(** [checkLength] in terms of what [decode] does. *)
Lemma checkLength_decoded (bech32 : Bech32Lib) (data : string) (n : Z)
  (vals : Decoded) :
  decode bech32 data = Return vals ->
  checkLength bech32 data n =
    Return (JS.and_string (Z.of_nat (List.length (words vals)) =? n)
                          (prefix vals)).
Proof. intros H. unfold checkLength. now rewrite H. Qed.

Lemma checkLength_thrown (bech32 : Bech32Lib) (data : string) (n : Z) (e : exn) :
  decode bech32 data = Throw e ->
  checkLength bech32 data n = Return JS.False.
Proof. intros H. unfold checkLength. now rewrite H. Qed.

Lemma checkLength_total (bech32 : Bech32Lib) (data : string) (n : Z) :
  exists v, checkLength bech32 data n = Return v.
Proof.
  destruct (decode bech32 data) as [vals|e] eqn:E.
  - rewrite (checkLength_decoded _ _ n _ E). now eexists.
  - rewrite (checkLength_thrown _ _ n _ E). now eexists.
Qed.

Lemma of_nat_eqb (n m : nat) : (Z.of_nat n =? Z.of_nat m) = Nat.eqb n m.
Proof.
  destruct (Nat.eqb_spec n m) as [->|H].
  - apply Z.eqb_refl.
  - apply Z.eqb_neq. lia.
Qed.

Lemma checkLength_32 (bech32 : Bech32Lib) (data : string) (vals : Decoded) :
  decode bech32 data = Return vals ->
  checkLength bech32 data 32 =
    Return (JS.and_string (Nat.eqb (List.length (words vals)) 32) (prefix vals)).
Proof.
  intros H. rewrite (checkLength_decoded _ _ _ _ H).
  now rewrite <- (of_nat_eqb _ 32).
Qed.

Lemma checkLength_52 (bech32 : Bech32Lib) (data : string) (vals : Decoded) :
  decode bech32 data = Return vals ->
  checkLength bech32 data 52 =
    Return (JS.and_string (Nat.eqb (List.length (words vals)) 52) (prefix vals)).
Proof.
  intros H. rewrite (checkLength_decoded _ _ _ _ H).
  now rewrite <- (of_nat_eqb _ 52).
Qed.

(** The value [checkLength(data, 32) || ''] passed to the pattern. *)
Lemma or_string_and_string (c : bool) (s : string) :
  JS.or_string (JS.and_string c s) "" = if c then s else "".
Proof.
  destruct c; simpl; [|reflexivity].
  unfold JS.truthy_string. now destruct (String.eqb_spec s "") as [->|].
Qed.

Lemma test_prefix_pattern_empty (sfx : string) :
  JS.test (prefix_pattern sfx) "" = false.
Proof. reflexivity. Qed.

(** What [validate] returns once [decode] has thrown: [false], for every
    family. *)
Lemma validate_thrown (f : Family) (bech32 : Bech32Lib) (data : string)
  (expected : option string) (e : exn) :
  decode bech32 data = Throw e ->
  validate_of f bech32 data expected = Return false.
Proof.
  intros D.
  destruct f; simpl;
    unfold AccAddress.validate, AccPubKey.validate, ValAddress.validate,
      ValPubKey.validate, ValConsAddress.validate, JS.or;
    rewrite ?(checkLength_thrown _ _ _ _ D);
    destruct (JS.if_given expected); reflexivity.
Qed.

(** What [validate] returns once [decode] has returned, for the account
    family. *)
Lemma AccAddress_validate_decoded (bech32 : Bech32Lib) (data : string)
  (expected : option string) (vals : Decoded) :
  decode bech32 data = Return vals ->
  AccAddress.validate bech32 data expected =
    Return (accepted_length Account (List.length (words vals)) &&
            match JS.if_given expected with
            | Some p => (prefix vals =? p)%string
            | None => JS.truthy_string (prefix vals)
            end).
Proof.
  intros D. unfold AccAddress.validate, JS.or.
  rewrite (checkLength_32 _ _ _ D), (checkLength_52 _ _ _ D).
  unfold JS.and_string, bind, accepted_length.
  assert (Hfalsy : forall s, JS.truthy_string s = false -> s = "").
  { intros s T. unfold JS.truthy_string in T. apply negb_false_iff in T.
    now apply String.eqb_eq in T. }
  destruct (JS.if_given expected) as [p|] eqn:G.
  - apply if_given_some in G. destruct G as [_ Hp].
    apply not_eq_sym in Hp. apply String.eqb_neq in Hp.
    destruct (Nat.eqb_spec (List.length (words vals)) 32) as [E32|N32].
    + rewrite E32. cbn [JS.truthy Nat.eqb orb andb JS.strict_eq].
      destruct (JS.truthy_string (prefix vals)) eqn:T; [reflexivity|].
      apply Hfalsy in T. rewrite T. cbn [JS.strict_eq]. now rewrite Hp.
    + cbn [JS.truthy orb]. destruct (Nat.eqb (List.length (words vals)) 52);
        reflexivity.
  - destruct (Nat.eqb_spec (List.length (words vals)) 32) as [E32|N32].
    + rewrite E32. cbn [JS.truthy Nat.eqb orb andb].
      destruct (JS.truthy_string (prefix vals)) eqn:T;
        cbn [JS.truthy]; now rewrite ?T.
    + cbn [JS.truthy orb]. destruct (Nat.eqb (List.length (words vals)) 52);
        reflexivity.
Qed.

(** The same for the four families with a suffix. *)
Lemma suffixed_validate_decoded (f : Family) (bech32 : Bech32Lib)
  (data : string) (expected : option string) (vals : Decoded) :
  f <> Account ->
  decode bech32 data = Return vals ->
  validate_of f bech32 data expected =
    Return (accepted_length f (List.length (words vals)) &&
            match JS.if_given expected with
            | Some p => (prefix vals =? p ++ suffix_of f)%string
            | None => JS.test (prefix_pattern (suffix_of f)) (prefix vals)
            end).
Proof.
  intros Hf D.
  destruct f; [congruence | | | | ]; simpl;
    unfold AccPubKey.validate, ValAddress.validate, ValPubKey.validate,
      ValConsAddress.validate;
    rewrite (checkLength_32 _ _ _ D);
    destruct (JS.if_given expected) as [p|]; simpl;
    rewrite ?or_string_and_string;
    destruct (Nat.eqb (List.length (words vals)) 32); reflexivity.
Qed.

(* ------------------------------------------------------------------ *)
(** ** Payload lengths accepted by [validate] *)

(** C1, as stated, fails: the account address [terra_account] decodes
    to 32 words, which is not one of the lengths 20 and 52, and
    [AccAddress.validate] returns [true] for it; a string that decodes to
    20 words under the same prefix is refused. *)
Lemma account_lengths_20_or_52_refuted :
  decode Bech32.lib terra_account
    = Return (mkDecoded "terra" terra_account_words) /\
  account_length_as_specified (List.length terra_account_words) = false /\
  AccAddress.validate Bech32.lib terra_account None = Return true /\
  (exists ws, decode Bech32.lib terra_20_words = Return (mkDecoded "terra" ws) /\
              account_length_as_specified (List.length ws) = true) /\
  AccAddress.validate Bech32.lib terra_20_words None = Return false.
Proof.
  split; [vm_compute; reflexivity|].
  split; [vm_compute; reflexivity|].
  split; [vm_compute; reflexivity|].
  split; [|vm_compute; reflexivity].
  eexists. split; [vm_compute; reflexivity|]. vm_compute; reflexivity.
Qed.

(** C1 (amended): [AccAddress.validate] returns [true] exactly when the
    input decodes to a payload of 32 or 52 words and the prefix check
    passes; the [validate] of each of the other four families returns
    [true] exactly when the input decodes to a payload of 32 words and
    the prefix check passes. *)
Theorem validate_accepted_lengths (bech32 : Bech32Lib) (data : string)
  (expected : option string) :
  (AccAddress.validate bech32 data expected = Return true <->
   exists vals, decode bech32 data = Return vals /\
     (List.length (words vals) = 32%nat \/ List.length (words vals) = 52%nat) /\
     prefix_check Account expected (prefix vals)) /\
  (forall f, f <> Account ->
   (validate_of f bech32 data expected = Return true <->
    exists vals, decode bech32 data = Return vals /\
      List.length (words vals) = 32%nat /\
      prefix_check f expected (prefix vals))).
Proof.
  split.
  - destruct (decode bech32 data) as [vals|e] eqn:D.
    + rewrite (AccAddress_validate_decoded _ _ _ _ D).
      unfold prefix_check, accepted_length. split.
      * intros [= H]. apply andb_true_iff in H. destruct H as [Hl Hp].
        exists vals. split; [reflexivity|]. split.
        { apply orb_true_iff in Hl.
          destruct Hl as [Hl|Hl]; apply Nat.eqb_eq in Hl; auto. }
        destruct (JS.if_given expected).
        { now apply String.eqb_eq. }
        { now apply truthy_string_true. }
      * intros (vals' & [= <-] & Hl & Hp). f_equal.
        apply andb_true_iff. split.
        { apply orb_true_iff.
          destruct Hl as [Hl|Hl]; [left|right]; now apply Nat.eqb_eq. }
        destruct (JS.if_given expected).
        { now apply String.eqb_eq. }
        { now apply truthy_string_true. }
    + pose proof (validate_thrown Account _ _ expected _ D) as H.
      simpl in H. rewrite H. split; [discriminate|].
      intros (vals & [=] & _).
  - intros f Hf. destruct (decode bech32 data) as [vals|e] eqn:D.
    + rewrite (suffixed_validate_decoded f _ _ _ _ Hf D).
      assert (Hl : accepted_length f (List.length (words vals))
                   = Nat.eqb (List.length (words vals)) 32)
        by (destruct f; [congruence | reflexivity ..]).
      assert (Hc : prefix_check f expected (prefix vals) <->
                   match JS.if_given expected with
                   | Some p => (prefix vals =? p ++ suffix_of f)%string
                   | None => JS.test (prefix_pattern (suffix_of f)) (prefix vals)
                   end = true).
      { unfold prefix_check.
        destruct f; [congruence | | | | ];
          destruct (JS.if_given expected);
          try apply iff_refl; symmetry; apply String.eqb_eq. }
      rewrite Hl. split.
      * intros [= H]. apply andb_true_iff in H. destruct H as [H1 H2].
        exists vals. split; [reflexivity|]. split.
        { now apply Nat.eqb_eq. }
        { now apply Hc. }
      * intros (vals' & [= <-] & H1 & H2). f_equal.
        apply andb_true_iff. split.
        { now apply Nat.eqb_eq. }
        { now apply Hc. }
    + rewrite (validate_thrown f _ _ expected _ D). split; [discriminate|].
      intros (vals & [=] & _).
Qed.

(* ------------------------------------------------------------------ *)
(** ** [validate] never throws *)

(** C2: for every family, every input string and every optional
    expected prefix, [validate] returns a boolean; it returns [false]
    whenever [decode] throws on the input and whenever the decoded
    payload length is not one the family accepts.  [checkLength] is where
    the failure is absorbed: it returns, and returns [false] when
    [decode] throws. *)
Theorem validate_never_throws (f : Family) (bech32 : Bech32Lib)
  (data : string) (expected : option string) :
  (exists b, validate_of f bech32 data expected = Return b) /\
  (forall e, decode bech32 data = Throw e ->
     validate_of f bech32 data expected = Return false /\
     forall n, checkLength bech32 data n = Return JS.False) /\
  (forall vals, decode bech32 data = Return vals ->
     accepted_length f (List.length (words vals)) = false ->
     validate_of f bech32 data expected = Return false) /\
  (forall n, exists v, checkLength bech32 data n = Return v).
Proof.
  assert (Hdec : forall vals, decode bech32 data = Return vals ->
            exists c, validate_of f bech32 data expected =
              Return (accepted_length f (List.length (words vals)) && c)).
  { intros vals D. destruct f.
    1: simpl; rewrite (AccAddress_validate_decoded _ _ _ _ D); eauto.
    all: erewrite suffixed_validate_decoded by (congruence || exact D); eauto. }
  repeat split.
  - destruct (decode bech32 data) as [vals|e] eqn:D.
    + destruct (Hdec vals eq_refl) as [c ->]. eauto.
    + rewrite (validate_thrown f _ _ expected _ D). eauto.
  - now apply (validate_thrown f _ _ expected e).
  - intros n. now apply (checkLength_thrown _ _ n e).
  - intros vals D Hl. destruct (Hdec vals D) as [c ->]. now rewrite Hl.
  - intros n. apply checkLength_total.
Qed.

(* ------------------------------------------------------------------ *)
(** ** The expected prefix is compared exactly *)

(** C6: for a valid account address [a] (one [AccAddress.validate]
    accepts) whose decoded prefix is [p], [validate(a, p)] is [true] and
    [validate(a, p + "x")] is [false]; and whenever [validate] returns
    [true] for an expected prefix, the input decoded and its decoded
    prefix is that very string. *)
Theorem AccAddress_validate_expected_prefix (bech32 : Bech32Lib)
  (a p : string) (ws : list Z) :
  AccAddress.validate bech32 a None = Return true ->
  decode bech32 a = Return (mkDecoded p ws) ->
  AccAddress.validate bech32 a (Some p) = Return true /\
  AccAddress.validate bech32 a (Some (p ++ "x")) = Return false /\
  (forall d q, AccAddress.validate bech32 d (Some q) = Return true ->
     q <> "" -> exists ws', decode bech32 d = Return (mkDecoded q ws')).
Proof.
  intros Hv D.
  rewrite (AccAddress_validate_decoded _ _ None _ D) in Hv.
  rewrite (AccAddress_validate_decoded _ _ (Some p) _ D).
  rewrite (AccAddress_validate_decoded _ _ (Some (p ++ "x")) _ D).
  cbn [JS.if_given prefix words] in *. unfold accepted_length in *.
  injection Hv as Hv. apply andb_true_iff in Hv. destruct Hv as [Hl Ht].
  rewrite Hl, Ht.
  assert (Tx : JS.truthy_string (p ++ "x") = true).
  { apply truthy_string_true. destruct p; discriminate. }
  rewrite Tx. repeat split.
  - now rewrite String.eqb_refl.
  - cbn [andb]. f_equal. apply String.eqb_neq.
    intros H. symmetry in H. revert H. now apply app_char_neq.
  - intros d q Hq Hne.
    destruct (decode bech32 d) as [[q' ws']|e] eqn:Dd.
    + rewrite (AccAddress_validate_decoded _ _ _ _ Dd) in Hq.
      apply truthy_string_true in Hne. cbn [JS.if_given prefix] in Hq.
      rewrite Hne in Hq. injection Hq as Hq.
      apply andb_true_iff in Hq. destruct Hq as [_ Hq].
      apply String.eqb_eq in Hq. subst q'. eauto.
    + pose proof (validate_thrown Account _ _ (Some q) _ Dd) as H.
      simpl in H. congruence.
Qed.

Lemma AccAddress_validate_expected_prefix_witness :
  AccAddress.validate Bech32.lib terra_account (Some "terra") = Return true /\
  AccAddress.validate Bech32.lib terra_account (Some "terrax") = Return false.
Proof.
  destruct (AccAddress_validate_expected_prefix Bech32.lib terra_account
              "terra" terra_account_words) as (H1 & H2 & _).
  - vm_compute; reflexivity.
  - vm_compute; reflexivity.
  - split; [exact H1 | exact H2].
Defined.

(* ------------------------------------------------------------------ *)
(** ** Derivations *)

Lemma derive_decoded (d : Derivation) (bech32 : Bech32Lib)
  (source p : string) (vals : Decoded) :
  decode bech32 source = Return vals ->
  derive d bech32 source p =
    encode bech32 (p ++ suffix_of (target d)) (words vals).
Proof.
  intros D.
  destruct d; simpl;
    unfold AccPubKey.fromAccAddress, ValAddress.fromAccAddress,
      ValPubKey.fromValAddress;
    rewrite D; reflexivity.
Qed.

Lemma derive_thrown (d : Derivation) (bech32 : Bech32Lib)
  (source p : string) (e : exn) :
  decode bech32 source = Throw e ->
  derive d bech32 source p = Throw e.
Proof.
  intros D.
  destruct d; simpl;
    unfold AccPubKey.fromAccAddress, ValAddress.fromAccAddress,
      ValPubKey.fromValAddress;
    rewrite D; reflexivity.
Qed.

Lemma fromValAddress_decoded (bech32 : Bech32Lib) (address : string)
  (vals : Decoded) :
  decode bech32 address = Return vals ->
  AccAddress.fromValAddress bech32 address =
    encode bech32
      (JS.substring (prefix vals) 0
         (JS.length (prefix vals) - JS.length "valoper"))
      (words vals).
Proof.
  intros D. unfold AccAddress.fromValAddress. now rewrite D.
Qed.

Lemma fromValAddress_thrown (bech32 : Bech32Lib) (address : string) (e : exn) :
  decode bech32 address = Throw e ->
  AccAddress.fromValAddress bech32 address = Throw e.
Proof.
  intros D. unfold AccAddress.fromValAddress. now rewrite D.
Qed.

Lemma getPrefix_decoded (f : Family) (bech32 : Bech32Lib) (address : string)
  (vals : Decoded) :
  decode bech32 address = Return vals ->
  getPrefix_of f bech32 address =
    Return (JS.substring (prefix vals) 0
              (JS.length (prefix vals) - JS.length (suffix_of f))).
Proof.
  intros D.
  destruct f; simpl;
    unfold AccAddress.getPrefix, AccPubKey.getPrefix, ValAddress.getPrefix,
      ValPubKey.getPrefix, ValConsAddress.getPrefix;
    rewrite D; try reflexivity.
  simpl. f_equal.
  pose proof (substring_strips_suffix (prefix vals) "") as H.
  rewrite string_app_empty in H. symmetry. exact H.
Qed.

Lemma getPrefix_thrown (f : Family) (bech32 : Bech32Lib) (address : string)
  (e : exn) :
  decode bech32 address = Throw e ->
  getPrefix_of f bech32 address = Throw e.
Proof.
  intros D.
  destruct f; simpl;
    unfold AccAddress.getPrefix, AccPubKey.getPrefix, ValAddress.getPrefix,
      ValPubKey.getPrefix, ValConsAddress.getPrefix;
    rewrite D; reflexivity.
Qed.




(** C4, as stated, fails for a valid account address in upper case.
    With the [bech32] package, [terra_account_upper] is accepted by
    [AccAddress.validate], alone and with ["terra"] expected, and decodes
    to the root prefix ["terra"]; converted to a validator operator
    address and back it is [terra_account], the same address in lower
    case, not the original string. *)
Lemma account_round_trip_changes_case :
  AccAddress.validate Bech32.lib terra_account_upper None = Return true /\
  AccAddress.validate Bech32.lib terra_account_upper (Some "terra")
    = Return true /\
  decode Bech32.lib terra_account_upper
    = Return (mkDecoded "terra" terra_account_words) /\
  (v <- ValAddress.fromAccAddress Bech32.lib terra_account_upper "terra" ;;
   AccAddress.fromValAddress Bech32.lib v) = Return terra_account /\
  (terra_account =? terra_account_upper)%string = false.
Proof.
  split; [vm_compute; reflexivity|].
  split; [vm_compute; reflexivity|].
  split; [vm_compute; reflexivity|].
  split; vm_compute; reflexivity.
Qed.

(** C4 (amended): an account address [a] that decodes to the root prefix
    [p] and is the string the codec encodes from its decoded prefix and
    words, converted with [ValAddress.fromAccAddress(a, p)] and back with
    [AccAddress.fromValAddress], is [a] again, when the codec returns,
    for [p ++ "valoper"] and the payload words, a string that decodes to
    that prefix and those words. *)
Theorem account_validator_round_trip (bech32 : Bech32Lib) (a p : string)
  (ws : list Z) :
  decode bech32 a = Return (mkDecoded p ws) ->
  encode bech32 p ws = Return a ->
  roundtrips bech32 (p ++ "valoper") ws ->
  (v <- ValAddress.fromAccAddress bech32 a p ;;
   AccAddress.fromValAddress bech32 v) = Return a.
Proof.
  intros D E (s & He & Hs).
  unfold ValAddress.fromAccAddress. rewrite D. cbn [bind words].
  rewrite He. cbn [bind].
  unfold AccAddress.fromValAddress. rewrite Hs. cbn [bind prefix words].
  rewrite substring_strips_suffix. exact E.
Qed.

Lemma account_validator_round_trip_witness :
  (v <- ValAddress.fromAccAddress Bech32.lib terra_account "terra" ;;
   AccAddress.fromValAddress Bech32.lib v) = Return terra_account.
Proof.
  apply (account_validator_round_trip Bech32.lib terra_account "terra"
           terra_account_words).
  - vm_compute; reflexivity.
  - vm_compute; reflexivity.
  - eexists; split; [vm_compute; reflexivity|]; vm_compute; reflexivity.
Defined.

(** C5, as stated, fails for some root prefixes [p].  With the
    [bech32] package, [ValAddress.getPrefix] of
    [ValAddress.fromAccAddress(terra_account, "TERRA")] is ["terra"], not
    ["TERRA"]; and [ValPubKey.fromValAddress(long_source, "terra")]
    throws, so that there is no derived string to take the prefix of. *)
Lemma getPrefix_of_derived_not_root :
  decode Bech32.lib terra_account
    = Return (mkDecoded "terra" terra_account_words) /\
  (r <- ValAddress.fromAccAddress Bech32.lib terra_account "TERRA" ;;
   ValAddress.getPrefix Bech32.lib r) = Return "terra" /\
  ("terra" =? "TERRA")%string = false /\
  decode Bech32.lib long_source = Return (mkDecoded "a" (repeat 0 82)) /\
  (r <- ValPubKey.fromValAddress Bech32.lib long_source "terra" ;;
   ValPubKey.getPrefix Bech32.lib r)
    = Throw (TypeError "Exceeds length limit").
Proof.
  split; [vm_compute; reflexivity|].
  split; [vm_compute; reflexivity|].
  split; [vm_compute; reflexivity|].
  split; vm_compute; reflexivity.
Qed.

(** C5 (amended): for each of the three derivable families, every
    string [a] that decodes and every root prefix [p] such that the codec
    returns, for [p] followed by the suffix of the family and the payload
    words of [a], a string that decodes to that prefix and those words,
    [getPrefix] of the string derived from [a] under [p] is [p]. *)
Theorem getPrefix_of_derived (d : Derivation) (bech32 : Bech32Lib)
  (a p : string) (vals : Decoded) :
  decode bech32 a = Return vals ->
  roundtrips bech32 (p ++ suffix_of (target d)) (words vals) ->
  (r <- derive d bech32 a p ;; getPrefix_of (target d) bech32 r) = Return p.
Proof.
  intros D (s & He & Hs).
  rewrite (derive_decoded d _ _ p _ D), He. cbn [bind].
  rewrite (getPrefix_decoded _ _ _ _ Hs). cbn [prefix].
  now rewrite substring_strips_suffix.
Qed.

Lemma getPrefix_of_derived_witness :
  (r <- derive ValPubKey_fromValAddress Bech32.lib terra_account "terra" ;;
   getPrefix_of (target ValPubKey_fromValAddress) Bech32.lib r)
  = Return "terra".
Proof.
  apply (getPrefix_of_derived ValPubKey_fromValAddress Bech32.lib
           terra_account "terra" (mkDecoded "terra" terra_account_words)).
  - vm_compute; reflexivity.
  - eexists; split; [vm_compute; reflexivity|]; vm_compute; reflexivity.
Defined.

(* ------------------------------------------------------------------ *)
(** ** Hard failures *)

(** C7, as stated, fails for the derivations.  With the [bech32]
    package [terra_account] decodes, and
    [ValAddress.fromAccAddress(terra_account, "ter ra")] throws all the
    same: [encode] refuses the space in the prefix.  [long_source]
    decodes, and [ValPubKey.fromValAddress(long_source, "terra")] throws:
    [encode] refuses a result longer than 90 characters. *)
Lemma derivation_throws_after_decode :
  decode Bech32.lib terra_account
    = Return (mkDecoded "terra" terra_account_words) /\
  ValAddress.fromAccAddress Bech32.lib terra_account "ter ra"
    = Throw (Error "Invalid prefix (ter ravaloper)") /\
  decode Bech32.lib long_source = Return (mkDecoded "a" (repeat 0 82)) /\
  ValPubKey.fromValAddress Bech32.lib long_source "terra"
    = Throw (TypeError "Exceeds length limit").
Proof.
  split; [vm_compute; reflexivity|].
  split; [vm_compute; reflexivity|].
  split; vm_compute; reflexivity.
Qed.

(** C7 (amended): [getPrefix], for every family, throws exactly when
    [decode] throws on its input, and throws the error [decode] threw.
    A [fromX] derivation throws exactly when [decode] throws on its
    input or, [decode] having returned, [encode] throws on the prefix
    and words the derivation hands it; the error is the one [decode], or
    [encode], threw.  A decode failure is never turned into a returned
    value. *)
Theorem thrown_errors_characterised (bech32 : Bech32Lib) (a p : string)
  (e : exn) :
  (forall f, getPrefix_of f bech32 a = Throw e <-> decode bech32 a = Throw e) /\
  (forall d,
     derive d bech32 a p = Throw e <->
     decode bech32 a = Throw e \/
     exists vals, decode bech32 a = Return vals /\
       encode bech32 (p ++ suffix_of (target d)) (words vals) = Throw e) /\
  (AccAddress.fromValAddress bech32 a = Throw e <->
   decode bech32 a = Throw e \/
   exists vals, decode bech32 a = Return vals /\
     encode bech32
       (JS.substring (prefix vals) 0
          (JS.length (prefix vals) - JS.length "valoper"))
       (words vals) = Throw e).
Proof.
  destruct (decode bech32 a) as [vals|e'] eqn:D.
  - split; [|split].
    + intros f. rewrite (getPrefix_decoded f _ _ _ D). split; discriminate.
    + intros d. rewrite (derive_decoded d _ _ p _ D). split.
      * intros H. right. exists vals. now split.
      * intros [H|(vals' & [= <-] & H)]; [discriminate | exact H].
    + rewrite (fromValAddress_decoded _ _ _ D). split.
      * intros H. right. exists vals. now split.
      * intros [H|(vals' & [= <-] & H)]; [discriminate | exact H].
  - split; [|split].
    + intros f. rewrite (getPrefix_thrown f _ _ _ D).
      split; intros [= ->]; reflexivity.
    + intros d. rewrite (derive_thrown d _ _ p _ D). split.
      * intros [= ->]. now left.
      * intros [[= ->]|(vals & [=] & _)]. reflexivity.
    + rewrite (fromValAddress_thrown _ _ _ D). split.
      * intros [= ->]. now left.
      * intros [[= ->]|(vals & [=] & _)]. reflexivity.
Qed.

(* ------------------------------------------------------------------ *)
(** ** [AccAddress.fromValAddress] does not look at the suffix *)

(** C9: [AccAddress.fromValAddress] encodes the payload words under the
    decoded prefix without its last 7 characters, whatever those
    characters are.  The account address [terra_account], whose prefix
    ["terra"] does not end in ["valoper"], is re-encoded under the empty
    prefix, and the consensus address [terra_valcons] under ["terra"]:
    both calls return a string. *)
Theorem fromValAddress_strips_unchecked :
  (forall bech32 address vals,
     decode bech32 address = Return vals ->
     AccAddress.fromValAddress bech32 address =
       encode bech32
         (String.substring 0 (String.length (prefix vals) - 7) (prefix vals))
         (words vals)) /\
  (decode Bech32.lib terra_account
     = Return (mkDecoded "terra" terra_account_words) /\
   ends_with "valoper" "terra" = false /\
   AccAddress.fromValAddress Bech32.lib terra_account
     = Return "1x46rqay4d3cssq8gxxvqz8xt6nwlz4td3ckeej") /\
  (decode Bech32.lib terra_valcons
     = Return (mkDecoded "terravalcons" terra_account_words) /\
   ends_with "valoper" "terravalcons" = false /\
   AccAddress.fromValAddress Bech32.lib terra_valcons = Return terra_account).
Proof.
  split; [|split; (split; [|split]); vm_compute; reflexivity].
  intros bech32 address vals D.
  unfold AccAddress.fromValAddress. rewrite D. cbn [bind]. f_equal.
  unfold JS.substring, JS.length.
  set (n := String.length (prefix vals)).
  match goal with
  | |- String.substring (Z.to_nat ?lo) (Z.to_nat ?len) _ = _ =>
      replace len with (Z.of_nat (n - 7)) by (simpl String.length; lia);
      replace lo with 0 by lia
  end.
  now rewrite Nat2Z.id.
Qed.

(* ------------------------------------------------------------------ *)
(** ** Message converters *)

(** C10: for every [MsgClaimDelegationRewards] [m], [fromAmino(toAmino(m))]
    and [fromData(toData(m))] are [m], field by field; [toAmino] and
    [toData] emit the type tags ['alliance/MsgClaimDelegationRewards'] and
    ['/alliance.alliance.MsgClaimDelegationRewards']; for every
    [MsgCreateDenom] [m], [fromAmino(toAmino(m))] and [fromData(toData(m))]
    have the [sender] and the [subdenom] of [m]. *)
Theorem message_round_trips :
  (forall (m : MsgClaimDelegationRewards.t) (x y : option bool),
     let a := MsgClaimDelegationRewards.fromAmino
                (MsgClaimDelegationRewards.toAmino m x) y in
     let d := MsgClaimDelegationRewards.fromData
                (MsgClaimDelegationRewards.toData m x) y in
     a = m /\ d = m /\
     MsgClaimDelegationRewards.delegatorAddress a
       = MsgClaimDelegationRewards.delegatorAddress m /\
     MsgClaimDelegationRewards.validatorAddress a
       = MsgClaimDelegationRewards.validatorAddress m /\
     MsgClaimDelegationRewards.denom a = MsgClaimDelegationRewards.denom m /\
     MsgClaimDelegationRewards.delegatorAddress d
       = MsgClaimDelegationRewards.delegatorAddress m /\
     MsgClaimDelegationRewards.validatorAddress d
       = MsgClaimDelegationRewards.validatorAddress m /\
     MsgClaimDelegationRewards.denom d = MsgClaimDelegationRewards.denom m /\
     MsgClaimDelegationRewards.Amino.type
       (MsgClaimDelegationRewards.toAmino m x)
       = "alliance/MsgClaimDelegationRewards" /\
     MsgClaimDelegationRewards.Data.at_type
       (MsgClaimDelegationRewards.toData m x)
       = "/alliance.alliance.MsgClaimDelegationRewards") /\
  (forall (m : MsgCreateDenom.t) (x y : option bool),
     let a := MsgCreateDenom.fromAmino (MsgCreateDenom.toAmino m x) in
     let d := MsgCreateDenom.fromData (MsgCreateDenom.toData m x) y in
     a = m /\ d = m /\
     MsgCreateDenom.sender a = MsgCreateDenom.sender m /\
     MsgCreateDenom.subdenom a = MsgCreateDenom.subdenom m /\
     MsgCreateDenom.sender d = MsgCreateDenom.sender m /\
     MsgCreateDenom.subdenom d = MsgCreateDenom.subdenom m).
Proof.
  split; intros [] x y; cbv; repeat split; reflexivity.
Qed.

(* ------------------------------------------------------------------ *)
(** ** The prefix pattern *)

Lemma drop_prefix_app (lit rest : string) :
  JS.drop_prefix lit (lit ++ rest) = Some rest.
Proof.
  induction lit as [|c lit IH]; simpl; [reflexivity|].
  now rewrite Ascii.eqb_refl.
Qed.

Lemma repeat_range_app (lo hi : ascii) (root rest : string) :
  all_chars (JS.in_range lo hi) root = true ->
  forall min max,
    (min <= String.length root <= max)%nat ->
    In rest (JS.repeat_range lo hi min max (root ++ rest)).
Proof.
  induction root as [|c root IH]; intros Hall min max Hlen; simpl in *.
  - assert (min = 0%nat) by lia. subst min.
    destruct max; simpl; now left.
  - apply andb_true_iff in Hall. destruct Hall as [Hc Hall].
    destruct max as [|max]; [lia|].
    apply in_or_app. right. rewrite Hc.
    apply IH; [assumption | lia].
Qed.

Lemma test_root_then_suffix (root sfx : string) :
  (2 <= String.length root <= 20)%nat ->
  all_chars (JS.in_range "a" "z") root = true ->
  JS.test (prefix_pattern sfx) (root ++ sfx) = true.
Proof.
  intros Hlen Hall.
  assert (Hm : JS.matches_here (prefix_pattern sfx) (root ++ sfx) = true).
  { unfold JS.matches_here, prefix_pattern. cbn [JS.match_here].
    pose proof (repeat_range_app "a" "z" root sfx Hall 2 20 Hlen) as Hin.
    assert (Hin' : In "" (flat_map (JS.match_here (JS.Chars sfx))
                      (JS.repeat_range "a" "z" 2 20 (root ++ sfx)))).
    { apply in_flat_map. exists sfx. split; [exact Hin|].
      cbn [JS.match_here].
      pose proof (drop_prefix_app sfx "") as Hd.
      rewrite string_app_empty in Hd. rewrite Hd. now left. }
    destruct (flat_map _ _); [contradiction | reflexivity]. }
  destruct (root ++ sfx); cbn [JS.test]; rewrite Hm; reflexivity.
Qed.

(** C8 at the inputs that break it: [validate] without an expected
    prefix accepts every decoded prefix the claim describes, and others
    with them.  [terra_valoperpub] decodes to 32 words under
    ["terravaloperpub"], which is not a root prefix followed by
    ["valoper"], and [ValAddress.validate] returns [true] for it;
    [long_root_valcons] has a root prefix of 21 letters and
    [ValConsAddress.validate] returns [true] for it. *)
Theorem validate_pattern_unanchored :
  (forall f root, f <> Account ->
     (2 <= String.length root <= 20)%nat ->
     all_chars (JS.in_range "a" "z") root = true ->
     JS.test (prefix_pattern (suffix_of f)) (root ++ suffix_of f) = true) /\
  (decode Bech32.lib terra_valoperpub
     = Return (mkDecoded "terravaloperpub" terra_account_words) /\
   List.length terra_account_words = 32%nat /\
   root_then_suffix "valoper" "terravaloperpub" = false /\
   ValAddress.validate Bech32.lib terra_valoperpub None = Return true) /\
  (decode Bech32.lib long_root_valcons
     = Return (mkDecoded "aaaaaaaaaaaaaaaaaaaaavalcons" terra_account_words) /\
   root_then_suffix "valcons" "aaaaaaaaaaaaaaaaaaaaavalcons" = false /\
   ValConsAddress.validate Bech32.lib long_root_valcons None = Return true).
Proof.
  split; [|split; [split; [|split; [|split]] | split; [|split]];
            vm_compute; reflexivity].
  intros f root _ Hlen Hall. now apply test_root_then_suffix.
Qed.

(* ------------------------------------------------------------------ *)
(** ** Strings and the prefix pattern, continued *)

Lemma string_app_assoc (a b c : string) : (a ++ b) ++ c = a ++ (b ++ c).
Proof. induction a as [|x a IH]; simpl; [reflexivity | now rewrite IH]. Qed.

Lemma string_app_inv_head (p s t : string) : p ++ s = p ++ t -> s = t.
Proof. induction p as [|c p IH]; simpl; [auto | intros [= H]; auto]. Qed.

Lemma drop_prefix_some (lit s rest : string) :
  JS.drop_prefix lit s = Some rest <-> s = lit ++ rest.
Proof.
  split.
  - revert s. induction lit as [|c lit IH]; intros s H; simpl in *.
    + now injection H.
    + destruct s as [|d s]; [discriminate|].
      destruct (Ascii.eqb_spec c d) as [->|]; [|discriminate].
      now rewrite (IH s H).
  - intros ->. apply drop_prefix_app.
Qed.

Lemma repeat_range_in (lo hi : ascii) (max : nat) :
  forall (min : nat) (s rest : string),
    In rest (JS.repeat_range lo hi min max s) ->
    exists r, s = r ++ rest /\
      all_chars (JS.in_range lo hi) r = true /\
      (min <= String.length r <= max)%nat.
Proof.
  induction max as [|max IH]; intros min s rest Hin;
    simpl in Hin; apply in_app_or in Hin; destruct Hin as [Hin|Hin].
  - destruct min; [|contradiction]. destruct Hin as [<-|[]].
    exists "". simpl. repeat split; lia.
  - contradiction.
  - destruct min; [|contradiction]. destruct Hin as [<-|[]].
    exists "". simpl. repeat split; lia.
  - destruct s as [|c s]; [contradiction|].
    destruct (JS.in_range lo hi c) eqn:Hc; [|contradiction].
    destruct (IH _ _ _ Hin) as (r & -> & Hall & Hlen).
    exists (String c r). simpl. rewrite Hc, Hall. repeat split; lia.
Qed.

(** Where the pattern of a family matches at the start of a string. *)
Lemma matches_here_prefix_pattern (sfx t : string) :
  JS.matches_here (prefix_pattern sfx) t = true <->
  exists r v, t = r ++ sfx ++ v /\
    (2 <= String.length r <= 20)%nat /\
    all_chars (JS.in_range "a" "z") r = true.
Proof.
  unfold JS.matches_here, prefix_pattern. cbn [JS.match_here]. split.
  - intros H.
    destruct (flat_map _ _) as [|x l] eqn:E; [discriminate|].
    assert (Hin : In x (x :: l)) by now left.
    rewrite <- E in Hin.
    apply in_flat_map in Hin. destruct Hin as (rest & Hrest & Hx).
    destruct (JS.drop_prefix sfx rest) as [v|] eqn:D; [|contradiction].
    apply drop_prefix_some in D. subst rest.
    destruct (repeat_range_in _ _ _ _ _ _ Hrest) as (r & -> & Hall & Hlen).
    exists r, v. auto.
  - intros (r & v & -> & Hlen & Hall).
    pose proof (repeat_range_app "a" "z" r (sfx ++ v) Hall 2 20 Hlen) as Hin.
    match goal with
    | |- match ?l with [] => _ | _ :: _ => _ end = _ =>
        assert (Hin' : In v l);
        [ apply in_flat_map; exists (sfx ++ v); split; [exact Hin|];
          rewrite drop_prefix_app; now left
        | destruct l; [contradiction | reflexivity] ]
    end.
Qed.

Lemma test_somewhere (r : JS.regex) (s : string) :
  JS.test r s = true <->
  exists u t, s = u ++ t /\ JS.matches_here r t = true.
Proof.
  induction s as [|c s IH]; cbn [JS.test].
  - rewrite orb_false_r. split.
    + intros H. exists "", "". auto.
    + intros (u & t & E & H). destruct u; [|discriminate].
      simpl in E. now subst t.
  - rewrite orb_true_iff, IH. split.
    + intros [H|(u & t & -> & H)].
      * exists "", (String c s). auto.
      * exists (String c u), t. auto.
    + intros (u & t & E & H). destruct u as [|d u].
      * simpl in E. subst t. now left.
      * injection E as -> ->. right. eauto.
Qed.

(** What the pattern of a family accepts: a string with 2 to 20
    lowercase letters followed by the suffix, anywhere in it. *)
Lemma test_prefix_pattern_iff (sfx s : string) :
  JS.test (prefix_pattern sfx) s = true <->
  exists u r v, s = u ++ r ++ sfx ++ v /\
    (2 <= String.length r <= 20)%nat /\
    all_chars (JS.in_range "a" "z") r = true.
Proof.
  rewrite test_somewhere. split.
  - intros (u & t & -> & H). apply matches_here_prefix_pattern in H.
    destruct H as (r & v & -> & Hlen & Hall). exists u, r, v. auto.
  - intros (u & r & v & -> & Hlen & Hall).
    exists u, (r ++ sfx ++ v). split; [reflexivity|].
    apply matches_here_prefix_pattern. eauto.
Qed.

Lemma suffix_of_inj (f g : Family) : suffix_of f = suffix_of g -> f = g.
Proof. destruct f, g; simpl; intros H; try reflexivity; discriminate H. Qed.

Lemma test_prefix_pattern_nonempty (sfx s : string) :
  JS.test (prefix_pattern sfx) s = true -> s <> "".
Proof. intros H ->. rewrite test_prefix_pattern_empty in H. discriminate. Qed.

(** [validate] with an expected root prefix, once [decode] has
    returned, for every family. *)
Lemma validate_expected_decoded (f : Family) (bech32 : Bech32Lib)
  (data p : string) (vals : Decoded) :
  p <> "" ->
  decode bech32 data = Return vals ->
  validate_of f bech32 data (Some p) =
    Return (accepted_length f (List.length (words vals)) &&
            (prefix vals =? p ++ suffix_of f)%string).
Proof.
  intros Hp D.
  assert (G : JS.if_given (Some p) = Some p)
    by (apply if_given_some; now split).
  destruct (Family_eq_dec f Account) as [->|Hf].
  - simpl validate_of. rewrite (AccAddress_validate_decoded _ _ _ _ D), G.
    simpl suffix_of. now rewrite string_app_empty.
  - now rewrite (suffixed_validate_decoded f _ _ _ _ Hf D), G.
Qed.

(** [validate] without an expected prefix, once [decode] has returned,
    for every family. *)
Lemma validate_unprefixed_decoded (f : Family) (bech32 : Bech32Lib)
  (data : string) (vals : Decoded) :
  decode bech32 data = Return vals ->
  validate_of f bech32 data None =
    Return (accepted_length f (List.length (words vals)) &&
            match f with
            | Account => JS.truthy_string (prefix vals)
            | _ => JS.test (prefix_pattern (suffix_of f)) (prefix vals)
            end).
Proof.
  intros D. destruct (Family_eq_dec f Account) as [->|Hf].
  - simpl validate_of. now rewrite (AccAddress_validate_decoded _ _ _ _ D).
  - rewrite (suffixed_validate_decoded f _ _ _ _ Hf D).
    destruct f; [congruence | reflexivity ..].
Qed.

Lemma validate_true_decodes (f : Family) (bech32 : Bech32Lib) (data : string)
  (expected : option string) :
  validate_of f bech32 data expected = Return true ->
  exists vals, decode bech32 data = Return vals.
Proof.
  intros H. destruct (decode bech32 data) as [vals|e] eqn:D; [eauto|].
  rewrite (validate_thrown f _ _ expected _ D) in H. discriminate.
Qed.

Lemma js_substring_from_0 (s : string) (k : nat) :
  JS.substring s 0 (JS.length s - Z.of_nat k) =
  String.substring 0 (String.length s - k) s.
Proof.
  unfold JS.substring, JS.length.
  set (n := String.length s).
  match goal with
  | |- String.substring (Z.to_nat ?lo) (Z.to_nat ?len) _ = _ =>
      replace len with (Z.of_nat (n - k)) by lia;
      replace lo with 0 by lia
  end.
  now rewrite Nat2Z.id.
Qed.

Lemma string_substring_0_0 (s : string) : String.substring 0 0 s = "".
Proof. now destruct s. Qed.

Lemma string_app_inv_tail (p q s : string) : p ++ s = q ++ s -> p = q.
Proof.
  revert q. induction p as [|c p IH]; intros [|d q] H; simpl in H.
  - reflexivity.
  - apply (f_equal String.length) in H. simpl in H.
    rewrite string_length_app in H. lia.
  - apply (f_equal String.length) in H. simpl in H.
    rewrite string_length_app in H. lia.
  - injection H as -> H. now rewrite (IH q H).
Qed.

(** A string of two characters or more ends with two characters. *)
Lemma string_last_two (r : string) :
  (2 <= String.length r)%nat ->
  exists r' c1 c2, r = r' ++ String c1 (String c2 "").
Proof.
  induction r as [|a r IH]; simpl; intros H; [lia|].
  destruct r as [|b r]; [simpl in H; lia|].
  destruct r as [|c r].
  - exists "", a, b. reflexivity.
  - destruct IH as (r' & c1 & c2 & E); [simpl; lia|].
    exists (String a r'), c1, c2. simpl. now rewrite E.
Qed.

Lemma all_chars_app (P : ascii -> bool) (s t : string) :
  all_chars P (s ++ t) = (all_chars P s && all_chars P t)%bool.
Proof.
  induction s as [|c s IH]; simpl; [reflexivity|].
  now rewrite IH, andb_assoc.
Qed.

(** The upper bound of the repetition does not count in a search: the
    pattern is found exactly where two lowercase letters stand before
    the suffix. *)
Lemma test_prefix_pattern_two_letters (sfx s : string) :
  JS.test (prefix_pattern sfx) s = true <->
  exists u c1 c2 v, s = u ++ String c1 (String c2 (sfx ++ v)) /\
    JS.in_range "a" "z" c1 = true /\ JS.in_range "a" "z" c2 = true.
Proof.
  rewrite test_prefix_pattern_iff. split.
  - intros (u & r & v & -> & Hlen & Hall).
    destruct (string_last_two r) as (r' & c1 & c2 & ->); [lia|].
    rewrite all_chars_app in Hall. apply andb_true_iff in Hall.
    destruct Hall as [_ Hall]. simpl in Hall.
    rewrite andb_true_r in Hall. apply andb_true_iff in Hall.
    exists (u ++ r'), c1, c2, v. split; [|exact Hall].
    now rewrite !string_app_assoc.
  - intros (u & c1 & c2 & v & -> & H1 & H2).
    exists u, (String c1 (String c2 "")), v. simpl. rewrite H1, H2.
    repeat split; lia.
Qed.

(** [validate] with the empty expected prefix is [validate] without
    one. *)
Lemma validate_empty_prefix_unfold (f : Family) (bech32 : Bech32Lib)
  (data : string) :
  validate_of f bech32 data (Some "") = validate_of f bech32 data None.
Proof. destruct f; reflexivity. Qed.

(* ------------------------------------------------------------------ *)
(** ** Further properties of the address module *)

(** X1: without an expected prefix, the [validate] of a family with a
    suffix returns [true] exactly when the input decodes to 32 words and
    its decoded prefix has, at any position, two lowercase letters
    immediately followed by the suffix of the family: nothing is asked of
    what stands before the two letters or after the suffix, and the
    upper bound of 20 letters does not count. *)
Theorem validate_searches_pattern (f : Family) (bech32 : Bech32Lib)
  (data : string) :
  f <> Account ->
  (validate_of f bech32 data None = Return true <->
   exists vals u c1 c2 v,
     decode bech32 data = Return vals /\
     List.length (words vals) = 32%nat /\
     prefix vals = u ++ String c1 (String c2 (suffix_of f ++ v)) /\
     JS.in_range "a" "z" c1 = true /\ JS.in_range "a" "z" c2 = true).
Proof.
  intros Hf. split.
  - intros H. destruct (validate_true_decodes _ _ _ _ H) as [vals D].
    rewrite (suffixed_validate_decoded f _ _ _ _ Hf D) in H.
    cbn [JS.if_given] in H. injection H as H.
    apply andb_true_iff in H. destruct H as [Hl Ht].
    apply test_prefix_pattern_two_letters in Ht.
    destruct Ht as (u & c1 & c2 & v & E & H1 & H2).
    exists vals, u, c1, c2, v. repeat split; try assumption.
    destruct f; [congruence | now apply Nat.eqb_eq in Hl ..].
  - intros (vals & u & c1 & c2 & v & D & Hl & E & H1 & H2).
    rewrite (suffixed_validate_decoded f _ _ _ _ Hf D).
    cbn [JS.if_given]. f_equal. apply andb_true_iff. split.
    + destruct f; [congruence | now apply Nat.eqb_eq ..].
    + apply test_prefix_pattern_two_letters. eauto 8.
Qed.

Lemma validate_searches_pattern_witness :
  validate_of ValidatorConsensus Bech32.lib long_root_valcons None
  = Return true.
Proof.
  apply (validate_searches_pattern ValidatorConsensus Bech32.lib
           long_root_valcons); [discriminate|].
  exists (mkDecoded "aaaaaaaaaaaaaaaaaaaaavalcons" terra_account_words),
    "aaaaaaaaaaaaaaaaaaa", "a"%char, "a"%char, "".
  split; [vm_compute; reflexivity|].
  split; [reflexivity|].
  split; [reflexivity|].
  split; reflexivity.
Defined.

(** X2: an empty expected prefix is no expected prefix: for every
    family, [validate(data, "")] is [validate(data)]. *)
Theorem validate_empty_expected_prefix (f : Family) (bech32 : Bech32Lib)
  (data : string) :
  validate_of f bech32 data (Some "") = validate_of f bech32 data None.
Proof. destruct f; reflexivity. Qed.

(** X3: for a root prefix of 2 to 20 lowercase letters, what [validate]
    accepts with the expected prefix it accepts without it. *)
Theorem validate_expected_then_unprefixed (f : Family) (bech32 : Bech32Lib)
  (data p : string) :
  (2 <= String.length p <= 20)%nat ->
  all_chars (JS.in_range "a" "z") p = true ->
  validate_of f bech32 data (Some p) = Return true ->
  validate_of f bech32 data None = Return true.
Proof.
  intros Hlen Hall H.
  assert (Hp : p <> "") by (destruct p; [simpl in Hlen; lia | discriminate]).
  destruct (validate_true_decodes _ _ _ _ H) as [vals D].
  rewrite (validate_expected_decoded f _ _ _ _ Hp D) in H.
  injection H as H. apply andb_true_iff in H. destruct H as [Hl He].
  apply String.eqb_eq in He.
  rewrite (validate_unprefixed_decoded f _ _ _ D), Hl, He. cbn [andb]. f_equal.
  destruct f; try (now apply test_root_then_suffix).
  simpl. rewrite string_app_empty. now apply truthy_string_true.
Qed.

Lemma validate_expected_then_unprefixed_witness :
  validate_of ValidatorOperator Bech32.lib terra_valoper None = Return true.
Proof.
  apply (validate_expected_then_unprefixed ValidatorOperator Bech32.lib
           terra_valoper "terra").
  - simpl; lia.
  - reflexivity.
  - vm_compute; reflexivity.
Defined.

(** X4: when [validate] accepts a string for a non-empty expected root
    prefix, the [getPrefix] of the family returns that root prefix. *)
Theorem getPrefix_of_validated (f : Family) (bech32 : Bech32Lib)
  (data p : string) :
  p <> "" ->
  validate_of f bech32 data (Some p) = Return true ->
  getPrefix_of f bech32 data = Return p.
Proof.
  intros Hp H.
  destruct (validate_true_decodes _ _ _ _ H) as [vals D].
  rewrite (validate_expected_decoded f _ _ _ _ Hp D) in H.
  injection H as H. apply andb_true_iff in H. destruct H as [_ He].
  apply String.eqb_eq in He.
  rewrite (getPrefix_decoded f _ _ _ D), He.
  now rewrite substring_strips_suffix.
Qed.

Lemma getPrefix_of_validated_witness :
  getPrefix_of ValidatorConsensus Bech32.lib terra_valcons = Return "terra".
Proof.
  apply (getPrefix_of_validated ValidatorConsensus Bech32.lib terra_valcons
           "terra").
  - discriminate.
  - vm_compute; reflexivity.
Defined.

(** X5: [getPrefix] returns the decoded prefix without its last
    characters, as many as the suffix of the family has, whatever they
    are; from a decoded prefix no longer than the suffix it returns the
    empty string. *)
Theorem getPrefix_drops_by_length (f : Family) (bech32 : Bech32Lib)
  (address : string) (vals : Decoded) :
  decode bech32 address = Return vals ->
  getPrefix_of f bech32 address =
    Return (String.substring 0
              (String.length (prefix vals) - String.length (suffix_of f))
              (prefix vals)) /\
  ((String.length (prefix vals) <= String.length (suffix_of f))%nat ->
   getPrefix_of f bech32 address = Return "").
Proof.
  intros D. rewrite (getPrefix_decoded f _ _ _ D).
  pose proof (js_substring_from_0 (prefix vals) (String.length (suffix_of f)))
    as E.
  fold (JS.length (suffix_of f)) in E. rewrite E.
  split; [reflexivity|]. intros Hle.
  replace (String.length (prefix vals) - String.length (suffix_of f))%nat
    with 0%nat by lia.
  now rewrite string_substring_0_0.
Qed.

Lemma getPrefix_drops_by_length_witness :
  getPrefix_of AccountPubKey Bech32.lib terra_account = Return "te" /\
  getPrefix_of ValidatorOperator Bech32.lib terra_account = Return "".
Proof.
  destruct (getPrefix_drops_by_length AccountPubKey Bech32.lib terra_account
              (mkDecoded "terra" terra_account_words)) as [H1 _].
  { vm_compute; reflexivity. }
  destruct (getPrefix_drops_by_length ValidatorOperator Bech32.lib
              terra_account (mkDecoded "terra" terra_account_words))
    as [_ H2].
  { vm_compute; reflexivity. }
  split; [exact H1 | apply H2; simpl; lia].
Defined.

(** X6: a validator operator address [v] that decodes to the prefix
    [p ++ "valoper"], converted with [AccAddress.fromValAddress(v)] and
    back with [ValAddress.fromAccAddress(_, p)], is [v] again, the codec
    being one that gives back what it encoded and encodes what it
    decoded to the same string. *)
Theorem validator_account_round_trip (bech32 : Bech32Lib) (v p : string)
  (ws : list Z) :
  decode bech32 v = Return (mkDecoded (p ++ "valoper") ws) ->
  encode bech32 (p ++ "valoper") ws = Return v ->
  roundtrips bech32 p ws ->
  (a <- AccAddress.fromValAddress bech32 v ;;
   ValAddress.fromAccAddress bech32 a p) = Return v.
Proof.
  intros D E (s & He & Hs).
  rewrite (fromValAddress_decoded _ _ _ D). cbn [prefix words].
  rewrite substring_strips_suffix, He. cbn [bind].
  unfold ValAddress.fromAccAddress. rewrite Hs. cbn [bind words]. exact E.
Qed.

Lemma validator_account_round_trip_witness :
  (a <- AccAddress.fromValAddress Bech32.lib terra_valoper ;;
   ValAddress.fromAccAddress Bech32.lib a "terra") = Return terra_valoper.
Proof.
  apply (validator_account_round_trip Bech32.lib terra_valoper "terra"
           terra_account_words).
  - vm_compute; reflexivity.
  - vm_compute; reflexivity.
  - eexists; split; [vm_compute; reflexivity|]; vm_compute; reflexivity.
Defined.

(** X7: a derivation reads the payload of its source and nothing else:
    deriving from a derived string gives what deriving from the first
    source gives, the codec being one that gives back the words it
    encoded. *)
Theorem derivation_of_derived (d1 d2 : Derivation) (bech32 : Bech32Lib)
  (a p q : string) (vals : Decoded) :
  decode bech32 a = Return vals ->
  roundtrips bech32 (p ++ suffix_of (target d1)) (words vals) ->
  (r <- derive d1 bech32 a p ;; derive d2 bech32 r q) = derive d2 bech32 a q.
Proof.
  intros D (s & He & Hs).
  rewrite (derive_decoded d1 _ _ p _ D), He. cbn [bind].
  now rewrite (derive_decoded d2 _ _ q _ Hs), (derive_decoded d2 _ _ q _ D).
Qed.

Lemma derivation_of_derived_witness :
  (r <- derive ValAddress_fromAccAddress Bech32.lib terra_account "terra" ;;
   derive ValPubKey_fromValAddress Bech32.lib r "terra")
  = derive ValPubKey_fromValAddress Bech32.lib terra_account "terra".
Proof.
  apply (derivation_of_derived ValAddress_fromAccAddress
           ValPubKey_fromValAddress Bech32.lib terra_account "terra" "terra"
           (mkDecoded "terra" terra_account_words)).
  - vm_compute; reflexivity.
  - eexists; split; [vm_compute; reflexivity|]; vm_compute; reflexivity.
Defined.

(** X8: the string a derivation builds for a non-empty root prefix [p]
    is accepted by the [validate] of its family with [p] expected
    exactly when the payload of the source has 32 words: a string
    derived from a 52-word account address is refused. *)
Theorem derived_is_valid_iff_32_words (d : Derivation) (bech32 : Bech32Lib)
  (a p : string) (vals : Decoded) :
  p <> "" ->
  decode bech32 a = Return vals ->
  roundtrips bech32 (p ++ suffix_of (target d)) (words vals) ->
  (r <- derive d bech32 a p ;; validate_of (target d) bech32 r (Some p))
  = Return (Nat.eqb (List.length (words vals)) 32).
Proof.
  intros Hp D (s & He & Hs).
  rewrite (derive_decoded d _ _ p _ D), He. cbn [bind].
  rewrite (validate_expected_decoded _ _ _ _ _ Hp Hs). cbn [prefix words].
  rewrite String.eqb_refl, andb_true_r. now destruct d.
Qed.

Lemma derived_is_valid_iff_32_words_witness :
  (r <- derive ValAddress_fromAccAddress Bech32.lib terra_account "terra" ;;
   validate_of (target ValAddress_fromAccAddress) Bech32.lib r (Some "terra"))
  = Return (Nat.eqb (List.length
                       (words (mkDecoded "terra" terra_account_words))) 32).
Proof.
  apply (derived_is_valid_iff_32_words ValAddress_fromAccAddress Bech32.lib
           terra_account "terra" (mkDecoded "terra" terra_account_words)).
  - discriminate.
  - vm_compute; reflexivity.
  - eexists; split; [vm_compute; reflexivity|]; vm_compute; reflexivity.
Defined.

(** X9: the string [AccAddress.fromValAddress] builds from a validator
    operator address of prefix [p ++ "valoper"], [p] not empty, is
    accepted by [AccAddress.validate] with [p] expected exactly when the
    payload has 32 or 52 words. *)
Theorem account_from_validator_is_valid (bech32 : Bech32Lib) (v p : string)
  (ws : list Z) :
  p <> "" ->
  decode bech32 v = Return (mkDecoded (p ++ "valoper") ws) ->
  roundtrips bech32 p ws ->
  (a <- AccAddress.fromValAddress bech32 v ;;
   AccAddress.validate bech32 a (Some p))
  = Return (Nat.eqb (List.length ws) 32 || Nat.eqb (List.length ws) 52).
Proof.
  intros Hp D (s & He & Hs).
  rewrite (fromValAddress_decoded _ _ _ D). cbn [prefix words].
  rewrite substring_strips_suffix, He. cbn [bind].
  pose proof (validate_expected_decoded Account _ _ _ _ Hp Hs) as H.
  cbn [validate_of prefix words suffix_of accepted_length] in H.
  rewrite H, string_app_empty, String.eqb_refl. now rewrite andb_true_r.
Qed.

Lemma account_from_validator_is_valid_witness :
  (a <- AccAddress.fromValAddress Bech32.lib terra_valoper ;;
   AccAddress.validate Bech32.lib a (Some "terra"))
  = Return (Nat.eqb (List.length terra_account_words) 32
            || Nat.eqb (List.length terra_account_words) 52).
Proof.
  apply (account_from_validator_is_valid Bech32.lib terra_valoper "terra"
           terra_account_words).
  - discriminate.
  - vm_compute; reflexivity.
  - eexists; split; [vm_compute; reflexivity|]; vm_compute; reflexivity.
Defined.

(** X10: with a non-empty expected root prefix the families exclude one
    another: a string one family's [validate] accepts is refused by the
    [validate] of every other family for the same root prefix. *)
Theorem families_exclusive_with_expected_prefix (f g : Family)
  (bech32 : Bech32Lib) (data p : string) :
  p <> "" ->
  f <> g ->
  validate_of f bech32 data (Some p) = Return true ->
  validate_of g bech32 data (Some p) = Return false.
Proof.
  intros Hp Hfg H.
  destruct (validate_true_decodes _ _ _ _ H) as [vals D].
  rewrite (validate_expected_decoded f _ _ _ _ Hp D) in H.
  injection H as H. apply andb_true_iff in H. destruct H as [_ He].
  apply String.eqb_eq in He.
  rewrite (validate_expected_decoded g _ _ _ _ Hp D), He. f_equal.
  apply andb_false_iff. right. apply String.eqb_neq.
  intros E. apply string_app_inv_head in E. apply suffix_of_inj in E.
  contradiction.
Qed.

Lemma families_exclusive_with_expected_prefix_witness :
  validate_of ValidatorOperator Bech32.lib terra_valoperpub (Some "terra")
  = Return false.
Proof.
  apply (families_exclusive_with_expected_prefix ValidatorPubKey
           ValidatorOperator Bech32.lib terra_valoperpub "terra").
  - discriminate.
  - discriminate.
  - vm_compute; reflexivity.
Defined.

(** X11: without an expected prefix the families overlap: whatever the
    [validate] of a family accepts, [AccAddress.validate] accepts; and
    what [ValPubKey.validate] accepts, [ValAddress.validate] and
    [AccPubKey.validate] accept too. *)
Theorem families_overlap_without_prefix (f : Family) (bech32 : Bech32Lib)
  (data : string) :
  validate_of f bech32 data None = Return true ->
  AccAddress.validate bech32 data None = Return true /\
  (f = ValidatorPubKey ->
   ValAddress.validate bech32 data None = Return true /\
   AccPubKey.validate bech32 data None = Return true).
Proof.
  intros H. destruct (validate_true_decodes _ _ _ _ H) as [vals D].
  rewrite (validate_unprefixed_decoded f _ _ _ D) in H.
  injection H as H. apply andb_true_iff in H. destruct H as [Hl Ht].
  split.
  - pose proof (validate_unprefixed_decoded Account _ _ _ D) as HA.
    cbn [validate_of] in HA. rewrite HA. f_equal.
    apply andb_true_iff. split.
    + destruct f; simpl in Hl |- *; [exact Hl | rewrite Hl; reflexivity ..].
    + destruct f; [exact Ht | ..];
        apply truthy_string_true;
        now apply (test_prefix_pattern_nonempty _ _ Ht).
  - intros ->. cbn [suffix_of accepted_length] in Hl, Ht.
    apply test_prefix_pattern_iff in Ht.
    destruct Ht as (u & r & v & E & Hlen & Hall).
    pose proof (validate_unprefixed_decoded ValidatorOperator _ _ _ D) as HV.
    pose proof (validate_unprefixed_decoded AccountPubKey _ _ _ D) as HP.
    cbn [validate_of suffix_of accepted_length] in HV, HP.
    rewrite HV, HP, Hl. cbn [andb]. split; f_equal;
      apply test_prefix_pattern_iff.
    + exists u, r, ("pub" ++ v). repeat split; try lia; assumption.
    + exists (u ++ r ++ "valop"), "er", v.
      repeat split; try (simpl; lia).
      rewrite E, !string_app_assoc. reflexivity.
Qed.

Lemma families_overlap_without_prefix_witness :
  AccAddress.validate Bech32.lib terra_valoperpub None = Return true /\
  ValAddress.validate Bech32.lib terra_valoperpub None = Return true /\
  AccPubKey.validate Bech32.lib terra_valoperpub None = Return true.
Proof.
  destruct (families_overlap_without_prefix ValidatorPubKey Bech32.lib
              terra_valoperpub) as [H1 H2].
  - vm_compute; reflexivity.
  - destruct (H2 eq_refl) as [H3 H4].
    split; [exact H1 | split; [exact H3 | exact H4]].
Defined.

(** X12: [AccAddress.getPrefix] of the string [AccAddress.fromValAddress]
    builds is what [ValAddress.getPrefix] returns for the source: both
    drop the last 7 characters of the decoded prefix, the codec being
    one that gives back the prefix it encoded. *)
Theorem getPrefix_of_account_from_validator (bech32 : Bech32Lib) (v : string)
  (vals : Decoded) :
  decode bech32 v = Return vals ->
  roundtrips bech32
    (JS.substring (prefix vals) 0
       (JS.length (prefix vals) - JS.length "valoper"))
    (words vals) ->
  (a <- AccAddress.fromValAddress bech32 v ;; AccAddress.getPrefix bech32 a)
  = ValAddress.getPrefix bech32 v.
Proof.
  intros D (s & He & Hs).
  rewrite (fromValAddress_decoded _ _ _ D), He. cbn [bind].
  unfold AccAddress.getPrefix, ValAddress.getPrefix. now rewrite Hs, D.
Qed.

Lemma getPrefix_of_account_from_validator_witness :
  (a <- AccAddress.fromValAddress Bech32.lib terra_valoper ;;
   AccAddress.getPrefix Bech32.lib a)
  = ValAddress.getPrefix Bech32.lib terra_valoper.
Proof.
  apply (getPrefix_of_account_from_validator Bech32.lib terra_valoper
           (mkDecoded "terravaloper" terra_account_words)).
  - vm_compute; reflexivity.
  - eexists; split; [vm_compute; reflexivity|]; vm_compute; reflexivity.
Defined.

(** X13: [checkLength(data, length)] is the string [p] exactly when
    [data] decodes to the prefix [p] and to [length] words, and [false]
    exactly when [data] does not decode to [length] words, a decode
    error included. *)
Theorem checkLength_characterised (bech32 : Bech32Lib) (data : string)
  (length : Z) :
  (forall p, checkLength bech32 data length = Return (JS.Str p) <->
     exists ws, decode bech32 data = Return (mkDecoded p ws) /\
                Z.of_nat (List.length ws) = length) /\
  (checkLength bech32 data length = Return JS.False <->
   forall vals, decode bech32 data = Return vals ->
                Z.of_nat (List.length (words vals)) <> length).
Proof.
  destruct (decode bech32 data) as [[q ws]|e] eqn:D.
  - rewrite (checkLength_decoded _ _ _ _ D). cbn [prefix words].
    destruct (Z.eqb_spec (Z.of_nat (List.length ws)) length) as [E|N];
      cbn [JS.and_string]; split; try intros p; split.
    + intros [= ->]. eauto.
    + intros (ws' & [= -> ->] & _). reflexivity.
    + discriminate.
    + intros H. now destruct (H _ eq_refl).
    + discriminate.
    + intros (ws' & [= -> ->] & E). contradiction.
    + intros _ vals [= <-]. exact N.
    + reflexivity.
  - rewrite (checkLength_thrown _ _ _ _ D). split; try intros p; split.
    + discriminate.
    + intros (ws & [=] & _).
    + intros _ vals [=].
    + reflexivity.
Qed.

(** X14: [toAmino] after [fromAmino] gives the Amino object back exactly
    when its [type] is the tag of the class, and [toData] after
    [fromData] the Data object exactly when its ['@type'] is: the
    [from] functions do not read the tag, and the [to] functions always
    write the tag of the class. *)
Theorem MsgClaimDelegationRewards_from_then_to
  (a : MsgClaimDelegationRewards.Amino.t)
  (d : MsgClaimDelegationRewards.Data.t) (x y : option bool) :
  (MsgClaimDelegationRewards.toAmino
     (MsgClaimDelegationRewards.fromAmino a y) x = a <->
   MsgClaimDelegationRewards.Amino.type a
     = "alliance/MsgClaimDelegationRewards") /\
  (MsgClaimDelegationRewards.toData
     (MsgClaimDelegationRewards.fromData d y) x = d <->
   MsgClaimDelegationRewards.Data.at_type d
     = "/alliance.alliance.MsgClaimDelegationRewards").
Proof.
  destruct a as [ty [da va de]], d as [ty' da' va' de'].
  unfold MsgClaimDelegationRewards.toAmino, MsgClaimDelegationRewards.fromAmino,
    MsgClaimDelegationRewards.toData, MsgClaimDelegationRewards.fromData.
  simpl. split; split; intros H; congruence.
Qed.

(** X15: the same for [MsgCreateDenom], whose tags are
    ['osmosis/tokenfactory/create-denom'] and
    ['/cosmwasm.tokenfactory.v1beta1.MsgCreateDenom']. *)
Theorem MsgCreateDenom_from_then_to
  (a : MsgCreateDenom.Amino.t) (d : MsgCreateDenom.Data.t)
  (x y : option bool) :
  (MsgCreateDenom.toAmino (MsgCreateDenom.fromAmino a) x = a <->
   MsgCreateDenom.Amino.type a = "osmosis/tokenfactory/create-denom") /\
  (MsgCreateDenom.toData (MsgCreateDenom.fromData d y) x = d <->
   MsgCreateDenom.Data.at_type d
     = "/cosmwasm.tokenfactory.v1beta1.MsgCreateDenom").
Proof.
  destruct a as [ty [se su]], d as [ty' se' su'].
  unfold MsgCreateDenom.toAmino, MsgCreateDenom.fromAmino,
    MsgCreateDenom.toData, MsgCreateDenom.fromData.
  simpl. split; split; intros H; congruence.
Qed.

(** X16: for one string, [validate] accepts at most one non-empty
    expected root prefix. *)
Theorem validate_expected_prefix_unique (f : Family) (bech32 : Bech32Lib)
  (data p q : string) :
  p <> "" -> q <> "" ->
  validate_of f bech32 data (Some p) = Return true ->
  validate_of f bech32 data (Some q) = Return true ->
  p = q.
Proof.
  intros Hp Hq H1 H2.
  destruct (validate_true_decodes _ _ _ _ H1) as [vals D].
  rewrite (validate_expected_decoded f _ _ _ _ Hp D) in H1.
  rewrite (validate_expected_decoded f _ _ _ _ Hq D) in H2.
  injection H1 as H1. injection H2 as H2.
  apply andb_true_iff in H1, H2.
  destruct H1 as [_ E1], H2 as [_ E2].
  apply String.eqb_eq in E1, E2.
  apply (string_app_inv_tail p q (suffix_of f)). congruence.
Qed.

Lemma validate_expected_prefix_unique_witness : "terra" = "terra".
Proof.
  apply (validate_expected_prefix_unique ValidatorOperator Bech32.lib
           terra_valoper "terra" "terra").
  - discriminate.
  - discriminate.
  - vm_compute; reflexivity.
  - vm_compute; reflexivity.
Defined.

(** X17: what any family's [validate] accepts for a non-empty expected
    root prefix [p], [AccAddress.validate] accepts when it is given the
    whole decoded prefix, [p] with the suffix of the family, as the
    expected one. *)
Theorem account_validate_accepts_whole_prefix (f : Family)
  (bech32 : Bech32Lib) (data p : string) :
  p <> "" ->
  validate_of f bech32 data (Some p) = Return true ->
  AccAddress.validate bech32 data (Some (p ++ suffix_of f)) = Return true.
Proof.
  intros Hp H.
  destruct (validate_true_decodes _ _ _ _ H) as [vals D].
  rewrite (validate_expected_decoded f _ _ _ _ Hp D) in H.
  injection H as H. apply andb_true_iff in H. destruct H as [Hl He].
  assert (Hq : p ++ suffix_of f <> "") by (destruct p; [congruence | discriminate]).
  pose proof (validate_expected_decoded Account _ _ _ _ Hq D) as HA.
  cbn [validate_of suffix_of] in HA. rewrite HA, string_app_empty, He.
  rewrite andb_true_r. f_equal.
  destruct f; simpl in Hl |- *; [exact Hl | rewrite Hl; reflexivity ..].
Qed.

Lemma account_validate_accepts_whole_prefix_witness :
  AccAddress.validate Bech32.lib terra_valoper
    (Some ("terra" ++ suffix_of ValidatorOperator)) = Return true.
Proof.
  apply (account_validate_accepts_whole_prefix ValidatorOperator Bech32.lib
           terra_valoper "terra").
  - discriminate.
  - vm_compute; reflexivity.
Defined.

(** X18: a derivation called with the empty root prefix encodes the
    payload under the bare suffix of the family, and the [validate] of
    that family refuses the result, without an expected prefix and with
    the empty one. *)
Theorem derived_with_empty_root_is_refused (d : Derivation)
  (bech32 : Bech32Lib) (a : string) (vals : Decoded) :
  decode bech32 a = Return vals ->
  roundtrips bech32 (suffix_of (target d)) (words vals) ->
  derive d bech32 a "" = encode bech32 (suffix_of (target d)) (words vals) /\
  (r <- derive d bech32 a "" ;; validate_of (target d) bech32 r None)
    = Return false /\
  (r <- derive d bech32 a "" ;; validate_of (target d) bech32 r (Some ""))
    = Return false.
Proof.
  intros D (s & He & Hs).
  pose proof (derive_decoded d _ _ "" _ D) as Hd. cbn [append] in Hd.
  rewrite Hd, He. cbn [bind]. split; [reflexivity|].
  rewrite validate_empty_prefix_unfold.
  rewrite (validate_unprefixed_decoded _ _ _ _ Hs). cbn [prefix words].
  assert (Ht : match target d with
               | Account => JS.truthy_string (suffix_of (target d))
               | _ => JS.test (prefix_pattern (suffix_of (target d)))
                        (suffix_of (target d))
               end = false) by (destruct d; reflexivity).
  rewrite Ht, andb_false_r. split; reflexivity.
Qed.

Lemma derived_with_empty_root_is_refused_witness :
  (r <- derive ValAddress_fromAccAddress Bech32.lib terra_account "" ;;
   validate_of (target ValAddress_fromAccAddress) Bech32.lib r None)
  = Return false.
Proof.
  apply (derived_with_empty_root_is_refused ValAddress_fromAccAddress
           Bech32.lib terra_account (mkDecoded "terra" terra_account_words)).
  - vm_compute; reflexivity.
  - eexists; split; [vm_compute; reflexivity|]; vm_compute; reflexivity.
Defined.
